(** * Task orchestration and tool execution engine of the agent

    A shallow embedding of [src/agents/tools.py] (ShellExecutor,
    FileManager) and [src/agents/orchestrator.py] (AgentOrchestrator), with
    the properties of the command policy, the file-access guard, the plan
    parser and the plan execution loop.

    Python [str] values are Rocq strings; a character stands for a code
    point below 256, and the character classes below are Python's
    ([str.isspace], [str.isdigit], [str.lower]) on that range. *)

From Stdlib Require Import String Ascii ZArith NArith Lia Bool DecimalString.
From stdpp Require Import gmap strings list.

Local Open Scope string_scope.
Local Open Scope list_scope.

(** ** Python string operations *)

Module PyStr.

Definition code (c : ascii) : N := N_of_ascii c.

Definition between (lo hi n : N) : bool := ((lo <=? n) && (n <=? hi))%N.

(** [c.isspace()] *)
Definition isspace (c : ascii) : bool :=
  let n := code c in
  between 9 13 n || between 28 32 n || (n =? 133)%N || (n =? 160)%N.

(** [c.isdigit()]: the digits 0-9 and the superscript digits of Latin-1. *)
Definition isdigit (c : ascii) : bool :=
  let n := code c in
  between 48 57 n || (n =? 178)%N || (n =? 179)%N || (n =? 185)%N.

(** [c.lower()] *)
Definition lower_char (c : ascii) : ascii :=
  let n := code c in
  if between 65 90 n || (between 192 222 n && negb (n =? 215)%N)
  then ascii_of_N (n + 32) else c.

Fixpoint lower (s : string) : string :=
  match s with
  | EmptyString => EmptyString
  | String c s' => String (lower_char c) (lower s')
  end.

Definition is_empty (s : string) : bool :=
  match s with EmptyString => true | _ => false end.

Fixpoint lstrip (s : string) : string :=
  match s with
  | EmptyString => EmptyString
  | String c s' => if isspace c then lstrip s' else s
  end.

Fixpoint rstrip (s : string) : string :=
  match s with
  | EmptyString => EmptyString
  | String c s' =>
      let r := rstrip s' in
      if is_empty r && isspace c then EmptyString else String c r
  end.

(** [s.strip()] *)
Definition strip (s : string) : string := lstrip (rstrip s).

(** [s.startswith(p)] *)
Fixpoint startswith (s p : string) {struct p} : bool :=
  match p, s with
  | EmptyString, _ => true
  | String _ _, EmptyString => false
  | String b p', String a s' => Ascii.eqb a b && startswith s' p'
  end.

(** [s.endswith(c)] for one character *)
Fixpoint endswith_char (s : string) (c : ascii) : bool :=
  match s with
  | EmptyString => false
  | String a s' => if is_empty s' then Ascii.eqb a c else endswith_char s' c
  end.

(** [sub in s] *)
Fixpoint contains (sub s : string) : bool :=
  startswith s sub ||
  match s with
  | EmptyString => false
  | String _ s' => contains sub s'
  end.

Fixpoint drop (n : nat) (s : string) : string :=
  match n, s with
  | O, _ => s
  | S _, EmptyString => EmptyString
  | S n', String _ s' => drop n' s'
  end.

(** [s.split(sep, 1)] for a non-empty separator: one cut at the first
    occurrence, or the whole string when there is none. *)
Fixpoint split_once (sep s : string) : list string :=
  if startswith s sep then [EmptyString; drop (String.length sep) s]
  else match s with
       | EmptyString => [EmptyString]
       | String c s' =>
           match split_once sep s' with
           | [a; b] => [String c a; b]
           | _ => [s]
           end
       end.

(** [s.split(sep)] for a one-character separator. *)
Fixpoint split_char (sep : ascii) (s : string) : list string :=
  match s with
  | EmptyString => [EmptyString]
  | String c s' =>
      if Ascii.eqb c sep then EmptyString :: split_char sep s'
      else match split_char sep s' with
           | h :: t => String c h :: t
           | [] => [String c EmptyString]
           end
  end.

(** [s.split()]: maximal runs of non-whitespace characters; [cur] is the
    run being read. *)
Fixpoint split_ws_from (cur s : string) : list string :=
  match s with
  | EmptyString => if is_empty cur then [] else [cur]
  | String c s' =>
      if isspace c
      then (if is_empty cur then split_ws_from EmptyString s'
            else cur :: split_ws_from EmptyString s')
      else split_ws_from (cur +:+ String c EmptyString) s'
  end.

Definition split_ws (s : string) : list string := split_ws_from EmptyString s.

(** [sep.join(l)] *)
Definition join (sep : string) (l : list string) : string := String.concat sep l.

(** [x in l] for a list of strings *)
Definition mem (x : string) (l : list string) : bool :=
  existsb (String.eqb x) l.

(** [str(n)] for a non-negative integer *)
Definition of_nat (n : nat) : string := NilEmpty.string_of_uint (Nat.to_uint n).

End PyStr.

(** ** ShellExecutor ([src/agents/tools.py]) *)

Module Shell.
Import PyStr.

Record ShellExecutor := {
  allowed_commands : list string;
  blocked_commands : list string;
  enable_sandbox : bool
}.

Definition default_allowed : list string :=
  ["ls"; "cat"; "pwd"; "echo"; "grep"; "find"].
Definition default_blocked : list string :=
  ["rm"; "mkfs"; "dd"; ">"; "format"].

(** [xs or default]: [None] and the empty list are both falsy. *)
Definition or_default (xs : option (list string)) (d : list string) : list string :=
  match xs with
  | Some (x :: l) => x :: l
  | _ => d
  end.

(** What the constructor finds on the host: whether the [docker] module was
    imported, and whether [docker.from_env()] returned a client. *)
Record docker_host := { DOCKER_AVAILABLE : bool; from_env_ok : bool }.

(** [ShellExecutor.__init__] *)
Definition init (host : docker_host) (allowed blocked : option (list string))
    (sandbox : bool) : ShellExecutor :=
  {| allowed_commands := or_default allowed default_allowed;
     blocked_commands := or_default blocked default_blocked;
     enable_sandbox :=
       if sandbox && DOCKER_AVAILABLE host then from_env_ok host else false |}.

(** [ShellExecutor.is_command_allowed] *)
Definition is_command_allowed (self : ShellExecutor) (command : string) : bool :=
  match split_ws (strip command) with
  | [] => false
  | base_command :: _ =>
      if existsb (fun blocked => contains blocked command) (blocked_commands self)
      then false
      else match allowed_commands self with
           | [] => true
           | _ => mem base_command (allowed_commands self)
           end
  end.

(** The dictionaries returned by [run_command]; a key that is absent from
    the returned dictionary is [None]. *)
Record command_result := {
  success : bool;
  command : string;
  error : option string;
  stdout : option string;
  stderr : option string;
  returncode : option Z
}.

Definition failure (cmd msg : string) : command_result :=
  {| success := false; command := cmd; error := Some msg;
     stdout := None; stderr := None; returncode := None |}.

Definition finished (ok : bool) (cmd out err : string) (rc : Z) : command_result :=
  {| success := ok; command := cmd; error := None;
     stdout := Some out; stderr := Some err; returncode := Some rc |}.

(** Exceptions, as far as the handlers of this class tell them apart. *)
Inductive exn :=
| TimeoutExpired
| OtherException (msg : string).

(** Outcome of a call: a returned value or a raised exception. *)
Inductive outcome (A : Type) :=
| Return (a : A)
| Raise (e : exn).
Arguments Return {A} a.
Arguments Raise {A} e.

(** What a child process does when it is left alone: it exits after some
    milliseconds with a return code and its captured output, it never
    exits, or it cannot be started or its output cannot be decoded. *)
Inductive process :=
| Exits (elapsed_ms : N) (rc : Z) (out err : string)
| Hangs
| Fails (msg : string).

(** What the container runtime does with a command: it returns bytes that
    decode to text or do not, or the call (or the creation of the temporary
    script) raises. *)
Inductive container :=
| Output (decoded : option string)
| DockerError (msg : string).

Record host := {
  spawn : string -> process;
  docker_run : string -> container
}.

(** [subprocess.run(command, shell=True, capture_output=True, text=True,
    timeout=t)] with [t] in seconds. *)
Definition subprocess_run (h : host) (cmd : string) (t : N)
  : outcome (Z * string * string) :=
  match spawn h cmd with
  | Exits elapsed rc out err =>
      if (t * 1000 <? elapsed)%N then Raise TimeoutExpired
      else Return (rc, out, err)
  | Hangs => Raise TimeoutExpired
  | Fails msg => Raise (OtherException msg)
  end.

(** [ShellExecutor._run_local]: only [TimeoutExpired] is handled here. *)
Definition _run_local (h : host) (cmd : string) : outcome command_result :=
  match subprocess_run h cmd 60 with
  | Return (rc, out, err) => Return (finished (rc =? 0)%Z cmd out err rc)
  | Raise TimeoutExpired =>
      Return (failure cmd "Command execution timed out after 60 seconds")
  | Raise e => Raise e
  end.

(** [ShellExecutor._run_sandboxed]: every exception is handled here. *)
Definition _run_sandboxed (h : host) (cmd : string) : outcome command_result :=
  match docker_run h cmd with
  | Output (Some text) => Return (finished true cmd text "" 0)
  | Output None => Return (failure cmd "Failed to decode container output")
  | DockerError msg => Return (failure cmd ("Error in Docker execution: " +:+ msg))
  end.

Definition str_of_exn (e : exn) : string :=
  match e with
  | TimeoutExpired => "TimeoutExpired"
  | OtherException msg => msg
  end.

(** [ShellExecutor.run_command]: the outer handler turns whatever is still
    raised into a failure value. *)
Definition run_command (self : ShellExecutor) (h : host) (cmd : string)
  : outcome command_result :=
  let body :=
    if negb (is_command_allowed self cmd)
    then Return (failure cmd "This command is not allowed for security reasons.")
    else if enable_sandbox self then _run_sandboxed h cmd
    else _run_local h cmd in
  match body with
  | Return r => Return r
  | Raise e => Return (failure cmd (str_of_exn e))
  end.

End Shell.

(** ** [os.path] on a POSIX host ([posixpath]) *)

Module PosixPath.
Import PyStr.

(** [os.path.join(a, b)] *)
Definition join (a b : string) : string :=
  if startswith b "/" then b
  else if is_empty a || endswith_char a "/" then a +:+ b
  else a +:+ "/" +:+ b.

(** One, two, or (for three and more) one leading slash is kept. *)
Definition initial_slashes (path : string) : nat :=
  if startswith path "/"
  then (if startswith path "//" && negb (startswith path "///") then 2 else 1)
  else 0.

Definition is_nil (l : list string) : bool :=
  match l with [] => true | _ => false end.

(** The loop of [normpath] over the components; [new_comps] grows and
    shrinks at its end. *)
Fixpoint norm_comps (initial : nat) (comps new_comps : list string) : list string :=
  match comps with
  | [] => new_comps
  | comp :: rest =>
      if String.eqb comp "" || String.eqb comp "."
      then norm_comps initial rest new_comps
      else if negb (String.eqb comp "..")
              || (Nat.eqb initial 0 && is_nil new_comps)
              || (negb (is_nil new_comps) && String.eqb (List.last new_comps "") "..")
      then norm_comps initial rest (new_comps ++ [comp])
      else if negb (is_nil new_comps)
      then norm_comps initial rest (removelast new_comps)
      else norm_comps initial rest new_comps
  end.

Fixpoint slashes (n : nat) : string :=
  match n with O => "" | S n' => String "/" (slashes n') end.

(** [os.path.normpath(path)] *)
Definition normpath (path : string) : string :=
  if is_empty path then "."
  else
    let initial := initial_slashes path in
    let comps := norm_comps initial (split_char "/" path) [] in
    let p := slashes initial +:+ PyStr.join "/" comps in
    if is_empty p then "." else p.

(** [p[:p.rfind('/') + 1]] *)
Fixpoint upto_last_slash (p : string) : string :=
  match p with
  | EmptyString => EmptyString
  | String c p' =>
      if contains "/" p then String c (upto_last_slash p') else EmptyString
  end.

Fixpoint all_slashes (s : string) : bool :=
  match s with
  | EmptyString => true
  | String c s' => Ascii.eqb c "/" && all_slashes s'
  end.

(** [s.rstrip('/')] *)
Fixpoint rstrip_slashes (s : string) : string :=
  match s with
  | EmptyString => EmptyString
  | String c s' =>
      let r := rstrip_slashes s' in
      if is_empty r && Ascii.eqb c "/" then EmptyString else String c r
  end.

(** [os.path.dirname(p)] *)
Definition dirname (p : string) : string :=
  let head := upto_last_slash p in
  if negb (is_empty head) && negb (all_slashes head)
  then rstrip_slashes head else head.

End PosixPath.

(** ** The file system under the file manager

    A place is the list of names from the root directory down to it; the
    root itself is the empty list and is always a directory. There are no
    links and no permissions. *)

Module FS.
Import PyStr.

Definition place := list string.

(** What a directory entry can be called: not empty, not ["."], not
    [".."], and without a slash. *)
Definition is_name (c : string) : bool :=
  negb (is_empty c) && negb (String.eqb c ".") && negb (String.eqb c "..")
  && negb (contains "/" c).

Inductive node :=
| File (content : string)
| Dir.

(** [st_size] and [st_mtime] (in clock ticks) as [os.stat] reports them. *)
Record stat_result := { st_size : Z; st_mtime : Z }.

Record filesystem := {
  tree : gmap (list string) node;
  cwd : place;
  os_stat : place -> stat_result
}.

Definition node_at (fs : filesystem) (p : place) : option node :=
  match p with
  | [] => Some Dir
  | _ => tree fs !! p
  end.

Definition is_dir_at (fs : filesystem) (p : place) : bool :=
  match node_at fs p with Some Dir => true | _ => false end.

(** One component of a path, followed from the place [cur]. *)
Definition enter (cur : place) (comp : string) : place :=
  if String.eqb comp "" || String.eqb comp "." then cur
  else if String.eqb comp ".." then removelast cur
  else cur ++ [comp].

(** Path resolution: every component is followed from a directory. *)
Fixpoint walk (fs : filesystem) (cur : place) (comps : list string) : option place :=
  match comps with
  | [] => Some cur
  | comp :: rest =>
      if is_dir_at fs cur then walk fs (enter cur comp) rest else None
  end.

Definition start_of (fs : filesystem) (path : string) : place :=
  if startswith path "/" then [] else cwd fs.

(** The place a path names, when all directories on the way exist. The
    empty path names nothing. *)
Definition locate (fs : filesystem) (path : string) : option place :=
  if is_empty path then None
  else walk fs (start_of fs path) (split_char "/" path).

Definition lookup_path (fs : filesystem) (path : string) : option node :=
  match locate fs path with
  | Some p => node_at fs p
  | None => None
  end.

(** [os.getcwd()] *)
Definition getcwd (fs : filesystem) : string := "/" +:+ PyStr.join "/" (cwd fs).

Definition with_tree (fs : filesystem) (t : gmap (list string) node) : filesystem :=
  {| tree := t; cwd := cwd fs; os_stat := os_stat fs |}.

(** The names directly below a directory. *)
Definition children (fs : filesystem) (p : place) : list string :=
  omap (fun kv : place * node =>
          let k := fst kv in
          if negb (PosixPath.is_nil k) && bool_decide (removelast k = p)
             && is_name (List.last k "")
          then Some (List.last k "") else None)
       (map_to_list (tree fs)).

(** [os.makedirs(path, exist_ok=True)] from the place [cur] on: every
    place on the way becomes a directory, unless a file is in the way. *)
Fixpoint make_dirs (fs : filesystem) (cur : place) (comps : list string)
  : option filesystem :=
  match node_at fs cur with
  | Some (File _) => None
  | here =>
      let fs' := match here with
                 | None => with_tree fs (<[cur := Dir]> (tree fs))
                 | Some _ => fs
                 end in
      match comps with
      | [] => Some fs'
      | comp :: rest => make_dirs fs' (enter cur comp) rest
      end
  end.

End FS.

(** ** FileManager ([src/agents/tools.py]) *)

Module Files.
Import PyStr FS.

(** The calls into the file system, in the order they are made. *)
Inductive fs_op :=
| Exists | Isdir | Listdir | OpenRead | Makedirs | OpenWrite | OpenAppend
| Unlink | Stat.

Record access := { op : fs_op; target : string }.

(** A computation on the file system: it returns a value or raises an
    exception (with its message), and leaves a file system and the list of
    the calls it made. *)
Definition io (A : Type) : Type :=
  filesystem -> list access -> (string + A) * filesystem * list access.

Definition ret {A} (a : A) : io A := fun fs log => (inr a, fs, log).
Definition raise {A} (msg : string) : io A := fun fs log => (inl msg, fs, log).
Definition bind {A B} (m : io A) (k : A -> io B) : io B :=
  fun fs log =>
    match m fs log with
    | (inr a, fs', log') => k a fs' log'
    | (inl msg, fs', log') => (inl msg, fs', log')
    end.

Notation "'let*' x ':=' m 'in' k" := (bind m (fun x => k))
  (at level 10, x name, m at level 100, k at level 200).

Definition call (o : fs_op) (path : string) : io unit :=
  fun fs log => (inr tt, fs, log ++ [{| op := o; target := path |}]).

Definition get_fs : io filesystem := fun fs log => (inr fs, fs, log).
Definition put_tree (t : gmap (list string) node) : io unit :=
  fun fs log => (inr tt, with_tree fs t, log).

(** [os.path.exists(path)] *)
Definition path_exists (path : string) : io bool :=
  let* _ := call Exists path in
  let* fs := get_fs in
  ret (match lookup_path fs path with Some _ => true | None => false end).

(** [os.path.isdir(path)] *)
Definition path_isdir (path : string) : io bool :=
  let* _ := call Isdir path in
  let* fs := get_fs in
  ret (match lookup_path fs path with Some Dir => true | _ => false end).

(** [os.listdir(path)] *)
Definition listdir (path : string) : io (list string) :=
  let* _ := call Listdir path in
  let* fs := get_fs in
  match locate fs path with
  | Some p => if is_dir_at fs p then ret (children fs p)
              else raise "Not a directory"
  | None => raise "No such file or directory"
  end.

(** [open(path, "r").read()] *)
Definition read_text (path : string) : io string :=
  let* _ := call OpenRead path in
  let* fs := get_fs in
  match lookup_path fs path with
  | Some (File text) => ret text
  | Some Dir => raise "Is a directory"
  | None => raise "No such file or directory"
  end.

(** [os.makedirs(path, exist_ok=True)] *)
Definition makedirs (path : string) : io unit :=
  let* _ := call Makedirs path in
  let* fs := get_fs in
  if is_empty path then raise "No such file or directory"
  else match make_dirs fs (start_of fs path) (split_char "/" path) with
       | Some fs' => put_tree (tree fs')
       | None => raise "File exists"
       end.

(** [open(path, mode).write(text)] for the modes ["w"] and ["a"]. *)
Definition write_text (append : bool) (path text : string) : io unit :=
  let* _ := call (if append then OpenAppend else OpenWrite) path in
  let* fs := get_fs in
  match locate fs path with
  | Some p =>
      match node_at fs p with
      | Some Dir => raise "Is a directory"
      | Some (File old) =>
          put_tree (<[p := File (if append then old +:+ text else text)]> (tree fs))
      | None => put_tree (<[p := File text]> (tree fs))
      end
  | None => raise "No such file or directory"
  end.

(** [os.unlink(path)] *)
Definition unlink (path : string) : io unit :=
  let* _ := call Unlink path in
  let* fs := get_fs in
  match locate fs path with
  | Some p =>
      match node_at fs p with
      | Some (File _) => put_tree (delete p (tree fs))
      | Some Dir => raise "Is a directory"
      | None => raise "No such file or directory"
      end
  | None => raise "No such file or directory"
  end.

(** [os.stat(path)] *)
Definition stat (path : string) : io stat_result :=
  let* _ := call Stat path in
  let* fs := get_fs in
  match locate fs path with
  | Some p =>
      match node_at fs p with
      | Some _ => ret (os_stat fs p)
      | None => raise "No such file or directory"
      end
  | None => raise "No such file or directory"
  end.

Record FileManager := { working_dir : string }.

(** [FileManager.__init__]: [working_dir or os.getcwd()] *)
Definition init (fs : filesystem) (dir : option string) : FileManager :=
  match dir with
  | Some (String c d) => {| working_dir := String c d |}
  | _ => {| working_dir := getcwd fs |}
  end.

Record entry := {
  name : string;
  entry_is_directory : bool;
  size : Z;
  modified : Z
}.

(** The dictionaries returned by [manage_file]; an absent key is [None].
    The key ["contents"] holds names for [read] and entries for [list]. *)
Record file_result := {
  success : bool;
  path : string;
  action : option string;
  error : option string;
  is_directory : option bool;
  content : option string;
  contents : option (list string);
  listing : option (list entry)
}.

Definition failed (p msg : string) : file_result :=
  {| success := false; path := p; action := None; error := Some msg;
     is_directory := None; content := None; contents := None; listing := None |}.

Definition done_action (p act : string) : file_result :=
  {| success := true; path := p; action := Some act; error := None;
     is_directory := None; content := None; contents := None; listing := None |}.

Definition path_escape_error : string := "Path is outside the working directory".

(** The test before every action. *)
Definition guard (self : FileManager) (p : string) : bool :=
  startswith (PosixPath.normpath (PosixPath.join (working_dir self) p))
             (PosixPath.normpath (working_dir self)).

(** The loop of the [list] action over the names of a directory. *)
Fixpoint list_entries (full_path : string) (items : list string) : io (list entry) :=
  match items with
  | [] => ret []
  | item :: rest =>
      let item_path := PosixPath.join full_path item in
      let* st := stat item_path in
      let* d := path_isdir item_path in
      let* more := list_entries full_path rest in
      ret ({| name := item; entry_is_directory := d;
              size := st_size st; modified := st_mtime st |} :: more)
  end.

Definition or_empty (text : option string) : string :=
  match text with Some t => t | None => "" end.

(** The body of [manage_file] inside its [try]. *)
Definition manage_file_body (self : FileManager) (act p : string)
    (text : option string) : io file_result :=
  let full_path := PosixPath.join (working_dir self) p in
  if negb (guard self p) then ret (failed p path_escape_error)
  else if String.eqb act "read" then
    let* e := path_exists full_path in
    if negb e then ret (failed p "File does not exist")
    else
      let* d := path_isdir full_path in
      if d then
        let* names := listdir full_path in
        ret {| success := true; path := p; action := None; error := None;
               is_directory := Some true; content := None;
               contents := Some names; listing := None |}
      else
        let* file_content := read_text full_path in
        ret {| success := true; path := p; action := None; error := None;
               is_directory := Some false; content := Some file_content;
               contents := None; listing := None |}
  else if String.eqb act "write" then
    let* _ := makedirs (PosixPath.dirname full_path) in
    let* _ := write_text false full_path (or_empty text) in
    ret (done_action p "write")
  else if String.eqb act "append" then
    let* _ := makedirs (PosixPath.dirname full_path) in
    let* _ := write_text true full_path (or_empty text) in
    ret (done_action p "append")
  else if String.eqb act "delete" then
    let* e := path_exists full_path in
    if negb e then ret (failed p "File does not exist")
    else
      let* d := path_isdir full_path in
      if d then ret (failed p "Cannot delete directories")
      else
        let* _ := unlink full_path in
        ret (done_action p "delete")
  else if String.eqb act "list" then
    let* e := path_exists full_path in
    if negb e then ret (failed p "Path does not exist")
    else
      let* d := path_isdir full_path in
      if negb d then ret (failed p "Path is not a directory")
      else
        let* items := listdir full_path in
        let* es := list_entries full_path items in
        ret {| success := true; path := p; action := None; error := None;
               is_directory := None; content := None; contents := None;
               listing := Some es |}
  else ret (failed p ("Unknown action: " +:+ act)).

(** [FileManager.manage_file]: an exception raised in the body becomes a
    failure value that names the action. The result comes with the file
    system after the call and the calls that were made. *)
Definition manage_file (self : FileManager) (act p : string)
    (text : option string) (fs : filesystem)
  : file_result * filesystem * list access :=
  match manage_file_body self act p text fs [] with
  | (inr r, fs', log) => (r, fs', log)
  | (inl msg, fs', log) =>
      ({| success := false; path := p; action := Some act; error := Some msg;
          is_directory := None; content := None; contents := None;
          listing := None |}, fs', log)
  end.

End Files.

(** ** AgentOrchestrator ([src/agents/orchestrator.py]) *)

Module Orchestrator.
Import PyStr.

Definition nl : string := String (ascii_of_nat 10) EmptyString.

Record step := {
  description : string;
  subtasks : list string;
  status : string
}.

(** *** [_parse_plan] *)

(** [line[0].isdigit() and ". " in line], for a non-empty line. *)
Definition is_header (line : string) : bool :=
  match line with
  | String c _ => isdigit c && contains ". " line
  | EmptyString => false
  end.

(** [line.startswith("-") or line.startswith("*")] *)
Definition is_bullet (line : string) : bool :=
  startswith line "-" || startswith line "*".

Definition pending (d : string) (subs : list string) : step :=
  {| description := d; subtasks := subs; status := "pending" |}.

(** Appending the open step, if there is one. *)
Definition close (steps : list step) (current_step : option string)
    (current_subtasks : list string) : list step :=
  match current_step with
  | Some d => steps ++ [pending d current_subtasks]
  | None => steps
  end.

Definition is_open (current_step : option string) : bool :=
  match current_step with Some _ => true | None => false end.

(** The loop over the lines and the flush after it. A header line always
    splits in two at its first [". "], so the case where it does not is
    never reached. *)
Fixpoint parse_lines (lines : list string) (steps : list step)
    (current_step : option string) (current_subtasks : list string) : list step :=
  match lines with
  | [] => close steps current_step current_subtasks
  | raw :: rest =>
      let line := strip raw in
      if is_empty line then parse_lines rest steps current_step current_subtasks
      else if is_header line then
        let steps' := close steps current_step current_subtasks in
        match split_once ". " line with
        | [_; d] => parse_lines rest steps' (Some d) []
        | _ => parse_lines rest steps' current_step current_subtasks
        end
      else if is_bullet line then
        let subtask := strip (drop 1 line) in
        if negb (is_empty subtask) && is_open current_step
        then parse_lines rest steps current_step (current_subtasks ++ [subtask])
        else parse_lines rest steps current_step current_subtasks
      else parse_lines rest steps current_step current_subtasks
  end.

Definition _parse_plan (plan_text : string) : list step :=
  parse_lines (split_char (ascii_of_nat 10) (strip plan_text)) [] None [].

(** *** Tool calls and their execution *)

Record tool_call := { tool : string; args : list (string * string) }.

Record tool_execution := {
  te_tool : string;
  te_args : list (string * string);
  success : bool;
  result : string
}.

Record step_result := {
  execution_text : string;
  tool_executions : list tool_execution;
  result_status : string;
  summary : string
}.

Definition when (b : bool) (c : tool_call) : list tool_call :=
  if b then [c] else [].

(** The tool names found in the lower-cased response, in this order. *)
Definition tool_calls_of (text : string) : list tool_call :=
  let t := lower text in
  when (contains "web_scraper" t)
       {| tool := "web_scraper"; args := [("url", "https://example.com")] |} ++
  when (contains "shell_command" t)
       {| tool := "shell_command"; args := [("command", "ls -la")] |} ++
  when (contains "file_manager" t)
       {| tool := "file_manager";
          args := [("action", "read"); ("path", "example.txt")] |} ++
  when (contains "web_search" t)
       {| tool := "web_search"; args := [("query", "example search query")] |}.

(** [_simulate_tool_execution] *)
Definition _simulate_tool_execution (text : string) (yolo_mode : bool)
  : list tool_execution :=
  map (fun call =>
         {| te_tool := tool call; te_args := args call; success := true;
            result := "Simulated result for " +:+ tool call |})
      (tool_calls_of text).

(** [sum(1 for te in tool_executions if te["success"])] *)
Definition success_count (tes : list tool_execution) : nat :=
  length (filter (fun te => success te = true) tes).

(** [_generate_summary] *)
Definition _generate_summary (text : string) (tes : list tool_execution) : string :=
  let ok := success_count tes in
  let failed_count := length tes - ok in
  let st :=
    if Nat.eqb failed_count 0 then "All tools executed successfully."
    else if Nat.eqb ok 0 then "All tool executions failed."
    else of_nat ok +:+ " tools succeeded, " +:+ of_nat failed_count
         +:+ " tools failed." in
  "Step execution: " +:+ st +:+ " Tools used: "
  +:+ join ", " (map te_tool tes) +:+ ".".

(** *** [execute_step] and [execute_plan] *)

(** The orchestrator's [execution_results] dictionary, and the number of
    completions requested so far. *)
Record orchestrator := {
  execution_results : gmap nat step_result;
  requests : nat
}.

Definition tools_desc : string :=
  join nl
    ["- web_scraper: Scrapes content from a specified URL";
     "- shell_command: Executes a shell command in a sandboxed environment";
     "- file_manager: Creates, reads, updates, or deletes files in the working directory";
     "- web_search: Performs a web search for the provided query"].

(** [EXECUTION_TEMPLATE.format(task_step=..., context=..., tools=...)] *)
Definition execution_prompt (task_step context tools : string) : string :=
  nl +:+ "You are an expert AI execution agent responsible for carrying out specific tasks."
  +:+ nl +:+ nl +:+ "TASK STEP: " +:+ task_step
  +:+ nl +:+ "OVERALL CONTEXT: " +:+ context
  +:+ nl +:+ nl +:+ "YOUR GOAL: Execute this specific step as effectively as possible, using the tools available to you."
  +:+ nl +:+ nl +:+ "AVAILABLE TOOLS: " +:+ tools
  +:+ nl +:+ nl +:+ "INSTRUCTIONS:"
  +:+ nl +:+ "1. Consider which tool is most appropriate for this specific step"
  +:+ nl +:+ "2. Execute the step with precision"
  +:+ nl +:+ "3. Report back with the results, including any relevant information retrieved"
  +:+ nl +:+ "4. If you encounter any errors or issues, try an alternative approach"
  +:+ nl +:+ "5. If you require user input or authentication, request it clearly"
  +:+ nl +:+ nl +:+ "Execute this step now." +:+ nl.

(** The digest of the earlier steps' summaries, for [prev_num] in
    [range(1, step_num)]. *)
Definition prev_results (results : gmap nat step_result) (step_num : nat)
  : list string :=
  omap (fun prev_num =>
          match results !! prev_num with
          | Some r => Some ("Step " +:+ of_nat prev_num +:+ " result: " +:+ summary r)
          | None => None
          end)
       (seq 1 (step_num - 1)).

Definition step_context (results : gmap nat step_result)
    (step_num total_steps : nat) : string :=
  let context := "This is step " +:+ of_nat step_num +:+ " of "
                 +:+ of_nat total_steps +:+ " in the plan." in
  if Nat.ltb 1 step_num && negb (bool_decide (results = ∅))
  then match prev_results results step_num with
       | [] => context
       | prev => context +:+ nl +:+ nl +:+ "Previous step results:" +:+ nl
                 +:+ join nl prev
       end
  else context.

Record step_record := {
  step_num : nat;
  record_description : string;
  record_result : step_result;
  record_status : string
}.

(** The dictionary returned by [execute_plan], without its three clock
    readings. *)
Record plan_result := {
  steps : list step_record;
  overall_status : string
}.

Section Execution.

(** The completion service answers the n-th request for a prompt with any
    text at all. *)
Variable generate_completion : nat -> string -> string.

(** The method that turns a response into tool executions; the class
    binds it to [_simulate_tool_execution]. *)
Variable simulate_tool_execution : string -> bool -> list tool_execution.

Definition execute_step (self : orchestrator) (s : step)
    (num total_steps : nat) (yolo_mode : bool) : step_result * orchestrator :=
  let context := step_context (execution_results self) num total_steps in
  let prompt :=
    execution_prompt
      (description s +:+ nl +:+ nl +:+ "Subtasks:" +:+ nl
       +:+ join nl (map (fun st => "- " +:+ st) (subtasks s)))
      context tools_desc in
  let text := generate_completion (requests self) prompt in
  let tes := simulate_tool_execution text yolo_mode in
  let r := {| execution_text := text;
              tool_executions := tes;
              result_status :=
                if forallb success tes then "completed" else "failed";
              summary := _generate_summary text tes |} in
  (r, {| execution_results := <[num := r]> (execution_results self);
         requests := S (requests self) |}).

Definition with_status (s : step) (st : string) : step :=
  {| description := description s; subtasks := subtasks s; status := st |}.

(** The loop of [execute_plan] from the step with index [i] on: the
    records appended, the overall status when the loop is left, the steps
    with their new statuses, and the orchestrator. *)
Fixpoint run_steps (self : orchestrator) (yolo_mode : bool) (total_steps i : nat)
    (todo : list step) (overall : string)
  : list step_record * string * list step * orchestrator :=
  match todo with
  | [] => ([], overall, [], self)
  | s :: rest =>
      let num := i + 1 in
      let '(r, self') := execute_step self s num total_steps yolo_mode in
      let rec := {| step_num := num; record_description := description s;
                    record_result := r; record_status := result_status r |} in
      let s' := with_status s (result_status r) in
      if String.eqb (result_status r) "failed" && negb yolo_mode
      then ([rec], "failed", s' :: rest, self')
      else
        let '(recs, overall', rest', self'') :=
          run_steps self' yolo_mode total_steps (S i) rest overall in
        (rec :: recs, overall', s' :: rest', self'')
  end.

Definition execute_plan (self : orchestrator) (plan : list step) (yolo_mode : bool)
  : plan_result * list step * orchestrator :=
  let '(recs, overall, plan', self') :=
    run_steps self yolo_mode (length plan) 0 plan "in_progress" in
  ({| steps := recs;
      overall_status :=
        if negb (String.eqb overall "failed") then "completed" else overall |},
   plan', self').

End Execution.

End Orchestrator.

(** ** Vocabulary of the properties *)

Module Props.
Import PyStr Orchestrator.

(** A command made of whitespace only (the empty command included). *)
Fixpoint whitespace_only (s : string) : bool :=
  match s with
  | EmptyString => true
  | String c s' => isspace c && whitespace_only s'
  end.

(** A child process that is still running after [t] seconds. *)
Definition runs_longer_than (p : Shell.process) (t : N) : bool :=
  match p with
  | Shell.Exits elapsed _ _ _ => (t * 1000 <? elapsed)%N
  | Shell.Hangs => true
  | Shell.Fails _ => false
  end.

(** The absolute path with the components [cs]. *)
Definition root_of (cs : list string) : string := "/" +:+ join "/" cs.

Fixpoint list_prefix (xs ys : list string) : bool :=
  match xs, ys with
  | [], _ => true
  | _ :: _, [] => false
  | x :: xs', y :: ys' => String.eqb x y && list_prefix xs' ys'
  end.

(** The names of a path, once normalised. *)
Definition components (p : string) : list string :=
  List.filter (fun c => negb (is_empty c))
              (split_char "/" (PosixPath.normpath p)).

(** An absolute path lies within an absolute root when the root's names
    are the first names of the path. *)
Definition within (root p : string) : bool :=
  list_prefix (components root) (components p).

(** A small file system: two home directories and [/etc/passwd]. *)
Definition sample_tree : gmap (list string) FS.node :=
  list_to_map
    [ (["home"], FS.Dir);
      (["home"; "user"], FS.Dir);
      (["home"; "user"; "a.txt"], FS.File "hello");
      (["home"; "user"; "sub"], FS.Dir);
      (["home"; "user2"], FS.Dir);
      (["home"; "user2"; "notes.txt"], FS.File "secret");
      (["etc"], FS.Dir);
      (["etc"; "passwd"], FS.File "root:x:0:0") ].

Definition sample_fs : FS.filesystem :=
  {| FS.tree := sample_tree; FS.cwd := ["home"; "user"];
     FS.os_stat := fun _ => {| FS.st_size := 0; FS.st_mtime := 0 |} |}.

(** The executor of the default configuration on a host without a
    container runtime. *)
Definition default_executor : Shell.ShellExecutor :=
  Shell.init {| Shell.DOCKER_AVAILABLE := false; Shell.from_env_ok := false |}
             None None true.

(** A host on which [sleep 90] needs ninety seconds. *)
Definition slow_host : Shell.host :=
  {| Shell.spawn := fun _ => Shell.Exits 90000 0 "" "";
     Shell.docker_run := fun _ => Shell.DockerError "no runtime" |}.


(** [d] is what follows the first occurrence of [sep] in [line]. *)
Definition after_first (sep line d : string) : Prop :=
  exists before,
    line = before +:+ sep +:+ d /\
    forall before' d', line = before' +:+ sep +:+ d' ->
                       String.length before <= String.length before'.



Definition not_failed (r : step_record) : Prop := record_status r <> "failed".

(** What [execute_plan] writes into a record, for the dispatch [sim]. *)
Definition well_recorded (sim : string -> bool -> list tool_execution)
    (yolo_mode : bool) (r : step_record) : Prop :=
  record_status r = result_status (record_result r) /\
  result_status (record_result r)
  = (if forallb success (tool_executions (record_result r))
     then "completed" else "failed") /\
  tool_executions (record_result r)
  = sim (execution_text (record_result r)) yolo_mode.

(** A completion service that names the shell tool in its second answer
    only, and a dispatch in which the shell tool fails. *)
Definition scripted_completion (n : nat) (prompt : string) : string :=
  if Nat.eqb n 1 then "run shell_command, then web_search" else "web_search".

Definition failing_shell (text : string) (yolo_mode : bool) : list tool_execution :=
  map (fun te =>
         {| te_tool := te_tool te; te_args := te_args te;
            success := negb (String.eqb (te_tool te) "shell_command");
            result := result te |})
      (_simulate_tool_execution text yolo_mode).

(** A completion service that names no tool. *)
Definition quiet_completion (n : nat) (prompt : string) : string :=
  "Nothing to run for this step.".

Definition fresh : orchestrator := {| execution_results := ∅; requests := 0 |}.

Definition three_steps : list step :=
  [pending "find the data" []; pending "list the files" ["use the shell"];
   pending "write the report" []].


(** A computation that only adds calls on paths satisfying [P], and whose
    value, when it returns one, satisfies [Q]. *)
Definition calls_only {A} (P : string -> Prop) (Q : A -> Prop)
    (m : Files.io A) : Prop :=
  forall fs log,
    Forall (fun a => P (Files.target a)) log ->
    Forall (fun a => P (Files.target a)) (snd (m fs log)) /\
    match fst (fst (m fs log)) with
    | inr a => Q a
    | inl _ => True
    end.

Definition anything {A} (a : A) : Prop := True.

End Props.

(** ** Further vocabulary *)

Module Words.
Import PyStr.

(** A string without any whitespace character. *)
Fixpoint no_space (s : string) : bool :=
  match s with
  | EmptyString => true
  | String c s' => negb (isspace c) && no_space s'
  end.


(** A host on which every process exits at once with the given code. *)
Definition quick_host (rc : Z) : Shell.host :=
  {| Shell.spawn := fun _ => Shell.Exits 5 rc "out" "err";
     Shell.docker_run := fun _ => Shell.Output (Some "from the container") |}.

(** [fs'] has everything [fs] has: the same working directory, every
    directory of [fs] is a directory of [fs'], and every file of [fs] is a
    file of [fs'] (its text may differ). *)
Definition extends (fs fs' : FS.filesystem) : Prop :=
  FS.cwd fs' = FS.cwd fs /\
  forall q,
    match FS.node_at fs q with
    | Some FS.Dir => FS.node_at fs' q = Some FS.Dir
    | Some (FS.File _) => exists text, FS.node_at fs' q = Some (FS.File text)
    | None => True
    end.

(** A computation that leaves the file system as it found it. *)
Definition keeps_fs {A} (m : Files.io A) : Prop :=
  forall fs log, snd (fst (m fs log)) = fs.

(** A computation that only adds to the file system. *)
Definition grows_fs {A} (m : Files.io A) : Prop :=
  forall fs log, extends fs (snd (fst (m fs log))).



Definition acc (o : Files.fs_op) (p : string) : Files.access :=
  {| Files.op := o; Files.target := p |}.

(** What [write] and [append] do once the guard is passed. *)
Definition store (ap : bool) (full_path p : string) (text : option string)
  : Files.io Files.file_result :=
  Files.bind (Files.makedirs (PosixPath.dirname full_path)) (fun _ =>
  Files.bind (Files.write_text ap full_path (Files.or_empty text)) (fun _ =>
  Files.ret (Files.done_action p (if ap then "append" else "write")))).


(** A computation whose value, when it returns one, satisfies [Q]. *)
Definition returns_only {A} (Q : A -> Prop) (m : Files.io A) : Prop :=
  forall fs log,
    match fst (fst (m fs log)) with
    | inr a => Q a
    | inl _ => True
    end.

(** A result dictionary for the path [p] that has an error text exactly
    when it reports failure. *)
Definition well_formed_result (p : string) (r : Files.file_result) : Prop :=
  Files.path r = p /\ (Files.success r = true <-> Files.error r = None).


(** The tools the orchestrator registers, in the order of
    [get_available_tools]. *)
Definition tool_names : list string :=
  ["web_scraper"; "shell_command"; "file_manager"; "web_search"].

(** A parsed step that says something: its description is not empty and
    none of its sub-tasks is. *)
Definition says_something (s : Orchestrator.step) : Prop :=
  Orchestrator.description s <> "" /\
  Forall (fun t => t <> "") (Orchestrator.subtasks s).

End Words.

(** ** [plan_task] and [run_task] ([src/agents/orchestrator.py]) *)

Module Tasks.
Import PyStr Orchestrator.

(** [PLANNING_TEMPLATE.format(task=..., tools=...)] *)
Definition planning_prompt (task tools : string) : string :=
  nl +:+ "You are an expert AI planning agent focused on breaking down complex tasks into clear, actionable steps."
  +:+ nl +:+ nl +:+ "TASK: " +:+ task
  +:+ nl +:+ nl +:+ "YOUR GOAL: Create a detailed, step-by-step plan to accomplish this task efficiently."
  +:+ nl +:+ nl +:+ "CONSTRAINTS:"
  +:+ nl +:+ "- Consider the available tools: " +:+ tools
  +:+ nl +:+ "- If the task requires web access, include specific URLs or search queries"
  +:+ nl +:+ "- If the task requires executing commands, specify them clearly"
  +:+ nl +:+ "- Identify any potential credentials or access requirements"
  +:+ nl +:+ "- Highlight any potential issues or challenges that might arise"
  +:+ nl +:+ nl +:+ "Please respond with a structured plan in the following format:"
  +:+ nl +:+ "1. [Step description]"
  +:+ nl +:+ "   - Sub-task 1"
  +:+ nl +:+ "   - Sub-task 2"
  +:+ nl +:+ "2. [Next step description]"
  +:+ nl +:+ "   - Sub-task 1"
  +:+ nl +:+ "   - Sub-task 2"
  +:+ nl +:+ nl +:+ "PLAN:" +:+ nl.

(** The dictionary [run_task] returns and records, without its clock
    reading. *)
Record task_result := {
  task : string;
  plan : list step;
  execution : plan_result;
  yolo_mode : bool
}.

(** The orchestrator with the two attributes that [plan_task] and
    [run_task] write: [current_plan] and [task_history]. *)
Record agent := {
  core : orchestrator;
  current_plan : option (list step);
  task_history : list task_result
}.

Section Running.

Variable generate_completion : nat -> string -> string.
Variable simulate_tool_execution : string -> bool -> list tool_execution.

(** [plan_task]: one completion request, parsed into steps. *)
Definition plan_task (self : agent) (task_text : string) : list step * agent :=
  let prompt := planning_prompt task_text tools_desc in
  let plan_text := generate_completion (requests (core self)) prompt in
  let plan_steps := _parse_plan plan_text in
  (plan_steps,
   {| core := {| execution_results := execution_results (core self);
                 requests := S (requests (core self)) |};
      current_plan := Some plan_steps;
      task_history := task_history self |}).

(** [run_task]. The list of steps that [plan_task] returned is the one
    [execute_plan] writes the statuses into, and the one that
    [current_plan] and the recorded result hold: all three see the new
    statuses. *)
Definition run_task (self : agent) (task_text : string) (yolo : bool)
  : task_result * agent :=
  let '(steps0, self1) := plan_task self task_text in
  let '(done, steps1, core2) :=
    execute_plan generate_completion simulate_tool_execution
                 (core self1) steps0 yolo in
  let results := {| task := task_text; plan := steps1; execution := done;
                    yolo_mode := yolo |} in
  (results,
   {| core := core2; current_plan := Some steps1;
      task_history := task_history self1 ++ [results] |}).

End Running.

(** An agent that has done nothing yet. *)
Definition new_agent : agent :=
  {| core := Props.fresh; current_plan := None; task_history := [] |}.

(** A completion service whose planning request fails (the client then
    returns the empty text). *)
Definition failed_request (n : nat) (prompt : string) : string := "".

(** A completion service that plans two steps and then names a tool for
    each. *)
Definition two_step_service (n : nat) (prompt : string) : string :=
  if Nat.eqb n 0
  then "1. Look" +:+ nl +:+ "- around" +:+ nl +:+ "2. Report"
  else "use web_search".

End Tasks.

(** ** WebScraper ([src/agents/tools.py]) *)

Module Web.
Import PyStr.

(** [s[:n]] *)
Fixpoint take (n : nat) (s : string) : string :=
  match n, s with
  | S n', String c s' => String c (take n' s')
  | _, _ => EmptyString
  end.

(** [s[:n] + "..." if len(s) > n else s] *)
Definition clip (n : nat) (s : string) : string :=
  if Nat.ltb n (String.length s) then take n s +:+ "..." else s.

(** The two parts of [urlparse(url)] that are looked at. *)
Record url_parts := { scheme : string; netloc : string }.

(** What BeautifulSoup makes of an HTML text: the title element, if any,
    with its string, if any; the stripped texts of the elements a
    selector matches, or the fault it raises; and the text that is left
    when the script, style, meta and link elements are taken out. *)
Record soup := {
  page_title : option (option string);
  select : string -> string + list string;
  get_text : string
}.

(** An answer with a good status: the [Content-Type] header (the empty
    string when absent), the text, what BeautifulSoup makes of it (or
    the fault it raises), and what [response.json()] gives: the fault it
    raises, or the value as [json.dumps] writes it, compactly and with
    [indent=2]. *)
Record response := {
  content_type : string;
  text : string;
  parsed : string + soup;
  json : string + (string * string)
}.

(** [session.get(...)] followed by [raise_for_status()]: an answer, a
    [RequestException], or any other fault. *)
Inductive reply :=
| Answer (r : response)
| RequestException (msg : string)
| OtherFault (msg : string).

(** [urlparse] raises on some texts (a bad IPv6 host, for one). *)
Record network := {
  urlparse : string -> string + url_parts;
  get : string -> option (string * string) -> reply;
  BS4_AVAILABLE : bool
}.

(** The dictionaries returned by [scrape]; an absent key is [None]. *)
Record scrape_result := {
  success : bool;
  url : option string;
  title : option (option string);
  content : option string;
  result_type : option string;
  error : option string
}.

Definition failure (u : option string) (msg : string) : scrape_result :=
  {| success := false; url := u; title := None; content := None;
     result_type := None; error := Some msg |}.

Definition found (u : string) (t : option (option string)) (c kind : string)
  : scrape_result :=
  {| success := true; url := Some u; title := t; content := Some c;
     result_type := Some kind; error := None |}.

(** [(username, password)] when the credentials hold both keys. *)
Definition auth_of (credentials : option (gmap string string))
  : option (string * string) :=
  match credentials with
  | Some c =>
      match c !! "username", c !! "password" with
      | Some u, Some p => Some (u, p)
      | _, _ => None
      end
  | None => None
  end.

Definition limit : nat := 5000.

(** The content of an HTML page: the texts a non-empty selector matches,
    one per line, or the whole text. *)
Definition html_content (page : soup) (selector : option string)
  : string + string :=
  match selector with
  | Some (String c sel) =>
      match select page (String c sel) with
      | inl msg => inl msg
      | inr [] => inr "No content found with the provided selector"
      | inr els => inr (join Orchestrator.nl els)
      end
  | _ => inr (get_text page)
  end.

(** [WebScraper.scrape] *)
Definition scrape (net : network) (u : string) (selector : option string)
    (credentials : option (gmap string string)) : scrape_result :=
  match urlparse net u with
  | inl msg => failure (Some u) ("Unexpected error: " +:+ msg)
  | inr parts =>
      if is_empty (scheme parts) || is_empty (netloc parts)
      then failure None ("Invalid URL: " +:+ u)
      else
        match get net u (auth_of credentials) with
        | RequestException msg => failure (Some u) msg
        | OtherFault msg => failure (Some u) ("Unexpected error: " +:+ msg)
        | Answer r =>
            if contains "text/html" (content_type r) && BS4_AVAILABLE net then
              match parsed r with
              | inl msg => failure (Some u) ("Unexpected error: " +:+ msg)
              | inr page =>
                  let t := match page_title page with
                           | Some s => s
                           | None => Some "No title"
                           end in
                  match html_content page selector with
                  | inl msg => failure (Some u) ("Unexpected error: " +:+ msg)
                  | inr c => found u (Some t) (clip limit c) "html"
                  end
              end
            else if contains "application/json" (content_type r) then
              match json r with
              | inl msg => failure (Some u) ("Unexpected error: " +:+ msg)
              | inr (compact, indented) =>
                  found u None
                        (if Nat.ltb limit (String.length compact)
                         then take limit indented +:+ "..." else indented)
                        "json"
              end
            else found u None (clip limit (text r)) (content_type r)
        end
  end.

(** A network that answers every request with the given plain text. *)
Definition plain_network (body : string) : network :=
  {| urlparse := fun _ => inr {| scheme := "https"; netloc := "example.com" |};
     get := fun _ _ =>
       Answer {| content_type := "text/plain"; text := body;
                 parsed := inr {| page_title := None; select := fun _ => inr [];
                                  get_text := body |};
                 json := inl "not JSON" |};
     BS4_AVAILABLE := true |}.

End Web.

(** * Properties *)

(** ** String facts *)

Section StringFacts.
Import PyStr.

Lemma rstrip_whitespace_only s :
  Props.whitespace_only s = true -> rstrip s = "".
Proof.
  induction s as [|c s IH]; simpl; [reflexivity|].
  intros [Hc Hs]%andb_true_iff. rewrite (IH Hs), Hc. reflexivity.
Qed.

Lemma strip_whitespace_only s :
  Props.whitespace_only s = true -> strip s = "".
Proof.
  intros H. unfold strip. rewrite (rstrip_whitespace_only _ H). reflexivity.
Qed.

End StringFacts.

(** ** The command policy *)

Section CommandPolicy.
Import PyStr Shell.

Lemma blocked_hit (self : ShellExecutor) (command blocked : string) :
  In blocked (blocked_commands self) ->
  contains blocked command = true ->
  existsb (fun b => contains b command) (blocked_commands self) = true.
Proof.
  intros Hin Hc. apply existsb_exists. exists blocked. split; assumption.
Qed.

(** C2. A command that contains a blocked substring anywhere is rejected,
    whatever the allow list holds: for every executor, for every executor
    built from a configured block list, and for ["rm -rf /tmp"] under the
    default block list with any allow list (one that holds ["rm"]
    included). *)
Theorem blocked_substring_rejected :
  (forall (self : ShellExecutor) (command blocked : string),
      In blocked (blocked_commands self) ->
      contains blocked command = true ->
      is_command_allowed self command = false) /\
  (forall host allowed (configured : list string) sandbox command blocked,
      In blocked configured ->
      contains blocked command = true ->
      is_command_allowed (init host allowed (Some configured) sandbox) command
      = false) /\
  (forall host (allowed : list string) sandbox,
      is_command_allowed (init host (Some ("rm" :: allowed)) None sandbox)
                         "rm -rf /tmp" = false).
Proof.
  assert (H1 : forall (self : ShellExecutor) (command blocked : string),
             In blocked (blocked_commands self) ->
             contains blocked command = true ->
             is_command_allowed self command = false).
  { intros self command blocked Hin Hc. unfold is_command_allowed.
    destruct (split_ws (strip command)) as [|base parts]; [reflexivity|].
    rewrite (blocked_hit self command blocked Hin Hc). reflexivity. }
  split; [exact H1|]. split.
  - intros host allowed configured sandbox command blocked Hin Hc.
    apply (H1 _ command blocked); [|exact Hc].
    destruct configured as [|b l]; [destruct Hin|]. exact Hin.
  - intros host allowed sandbox.
    apply (H1 _ "rm -rf /tmp" "rm"); [|reflexivity].
    simpl. left. reflexivity.
Qed.

Lemma blocked_substring_rejected_witness :
  In "rm" (blocked_commands Props.default_executor) /\
  contains "rm" "rm -rf /tmp" = true /\
  is_command_allowed Props.default_executor "rm -rf /tmp" = false.
Proof.
  assert (Hin : In "rm" (blocked_commands Props.default_executor))
    by (simpl; left; reflexivity).
  assert (Hc : contains "rm" "rm -rf /tmp" = true) by reflexivity.
  split; [exact Hin|]. split; [exact Hc|].
  exact (proj1 blocked_substring_rejected Props.default_executor
               "rm -rf /tmp" "rm" Hin Hc).
Defined.

(** C10. The default configuration allows {ls, cat, pwd, echo, grep, find}
    and blocks {rm, mkfs, dd, ">", format}; under it ["ls -la"] is allowed
    and ["scp file host:"] is not, and a command that is empty or
    whitespace only is rejected by every executor. *)
Theorem default_policy :
  allowed_commands Props.default_executor
    = ["ls"; "cat"; "pwd"; "echo"; "grep"; "find"] /\
  blocked_commands Props.default_executor
    = ["rm"; "mkfs"; "dd"; ">"; "format"] /\
  is_command_allowed Props.default_executor "ls -la" = true /\
  is_command_allowed Props.default_executor "scp file host:" = false /\
  (forall (self : ShellExecutor) (command : string),
      Props.whitespace_only command = true ->
      is_command_allowed self command = false).
Proof.
  repeat split; try reflexivity.
  intros self command Hws. unfold is_command_allowed.
  rewrite (strip_whitespace_only _ Hws). reflexivity.
Qed.

Lemma default_policy_witness :
  Props.whitespace_only "   " = true /\
  is_command_allowed Props.default_executor "   " = false.
Proof.
  assert (Hws : Props.whitespace_only "   " = true) by reflexivity.
  split; [exact Hws|].
  exact (proj2 (proj2 (proj2 (proj2 default_policy)))
               Props.default_executor "   " Hws).
Defined.

(** C8. An allowed command that runs locally and is still running after
    the 60 seconds of the timeout makes [run_command] return the failure
    value that names the timeout; and [run_command] returns a value on
    every input, it never raises. *)
Theorem timeout_is_a_failure_value :
  (forall (self : ShellExecutor) (h : host) (cmd : string),
      is_command_allowed self cmd = true ->
      enable_sandbox self = false ->
      Props.runs_longer_than (spawn h cmd) 60 = true ->
      run_command self h cmd
      = Return {| success := false; command := cmd;
                  error := Some "Command execution timed out after 60 seconds";
                  stdout := None; stderr := None; returncode := None |}) /\
  (forall (self : ShellExecutor) (h : host) (cmd : string),
      exists r, run_command self h cmd = Return r).
Proof.
  split.
  - intros self h cmd Hok Hlocal Hlong.
    unfold run_command, _run_local, subprocess_run.
    rewrite Hok, Hlocal. simpl.
    destruct (spawn h cmd) as [elapsed rc out err| |msg]; simpl in *.
    + rewrite Hlong. reflexivity.
    + reflexivity.
    + discriminate.
  - intros self h cmd. unfold run_command.
    destruct (negb (is_command_allowed self cmd)); [eexists; reflexivity|].
    destruct (enable_sandbox self).
    + destruct (_run_sandboxed h cmd); eexists; reflexivity.
    + destruct (_run_local h cmd); eexists; reflexivity.
Qed.

Lemma timeout_is_a_failure_value_witness :
  run_command Props.default_executor Props.slow_host "echo done"
  = Return (failure "echo done" "Command execution timed out after 60 seconds").
Proof.
  apply (proj1 timeout_is_a_failure_value); reflexivity.
Defined.

End CommandPolicy.

(** ** Paths *)

Section PathFacts.
Import PyStr PosixPath.

Lemma append_cons c a b : String c a +:+ b = String c (a +:+ b).
Proof. reflexivity. Qed.

Lemma append_empty_r a : a +:+ "" = a.
Proof. induction a as [|c a IH]; [reflexivity|]. rewrite append_cons, IH. reflexivity. Qed.

Lemma append_assoc a b c : (a +:+ b) +:+ c = a +:+ (b +:+ c).
Proof.
  induction a as [|x a IH]; [reflexivity|].
  rewrite !append_cons, IH. reflexivity.
Qed.

Lemma slash_free_cons c s :
  contains "/" (String c s) = false ->
  Ascii.eqb c "/" = false /\ contains "/" s = false.
Proof.
  simpl. intros H. apply orb_false_iff in H as [H1 H2].
  rewrite andb_true_r in H1. split; assumption.
Qed.

Lemma split_char_not_nil sep s : split_char sep s <> [].
Proof.
  destruct s as [|c s]; simpl; [discriminate|].
  destruct (Ascii.eqb c sep); [discriminate|].
  destruct (split_char sep s); discriminate.
Qed.

Lemma split_char_app sep a b :
  split_char sep (a +:+ String sep b) = split_char sep a ++ split_char sep b.
Proof.
  induction a as [|c a IH].
  - change ("" +:+ String sep b) with (String sep b). simpl.
    rewrite Ascii.eqb_refl. reflexivity.
  - rewrite append_cons. simpl. destruct (Ascii.eqb c sep).
    + rewrite IH. reflexivity.
    + rewrite IH. destruct (split_char sep a) as [|h t] eqn:E.
      * exfalso. exact (split_char_not_nil _ _ E).
      * reflexivity.
Qed.

Lemma split_char_slash_free c :
  contains "/" c = false -> split_char "/" c = [c].
Proof.
  induction c as [|x c IH]; [reflexivity|].
  intros [Hx Hc]%slash_free_cons. simpl. rewrite Hx, (IH Hc). reflexivity.
Qed.

Lemma name_slash_free c : FS.is_name c = true -> contains "/" c = false.
Proof.
  unfold FS.is_name. intros H.
  apply andb_true_iff in H as [_ H]. apply negb_true_iff in H. exact H.
Qed.

Lemma join_cons sep c d cs :
  PyStr.join sep (c :: d :: cs) = c +:+ sep +:+ PyStr.join sep (d :: cs).
Proof. reflexivity. Qed.

Lemma split_join cs :
  cs <> [] -> forallb FS.is_name cs = true ->
  split_char "/" (PyStr.join "/" cs) = cs.
Proof.
  induction cs as [|c cs IH]; [congruence|]. intros _ H.
  simpl in H. apply andb_true_iff in H as [Hc Hcs].
  destruct cs as [|d cs].
  - simpl. apply split_char_slash_free, name_slash_free, Hc.
  - rewrite join_cons. change ("/" +:+ PyStr.join "/" (d :: cs))
      with (String "/" (PyStr.join "/" (d :: cs))).
    rewrite split_char_app, IH by (congruence || assumption).
    rewrite (split_char_slash_free c) by (apply name_slash_free, Hc).
    reflexivity.
Qed.

Lemma name_facts c :
  FS.is_name c = true ->
  String.eqb c "" = false /\ String.eqb c "." = false /\ String.eqb c ".." = false.
Proof.
  unfold FS.is_name. intros H.
  apply andb_true_iff in H as [H _]. apply andb_true_iff in H as [H H3].
  apply andb_true_iff in H as [H1 H2].
  apply negb_true_iff in H1, H2, H3. repeat split; try assumption.
  destruct c; [discriminate|reflexivity].
Qed.

(** Names are pushed one after the other. *)
Lemma norm_comps_push initial cs rest acc :
  forallb FS.is_name cs = true ->
  norm_comps initial (cs ++ rest) acc = norm_comps initial rest (acc ++ cs).
Proof.
  revert acc. induction cs as [|c cs IH]; intros acc H.
  - rewrite app_nil_r. reflexivity.
  - simpl in H. apply andb_true_iff in H as [Hc Hcs].
    destruct (name_facts c Hc) as (H1 & H2 & H3).
    simpl. rewrite H1, H2, H3. simpl.
    rewrite (IH (acc ++ [c]) Hcs), <- app_assoc. reflexivity.
Qed.


Lemma join_not_empty c cs :
  FS.is_name c = true -> is_empty (PyStr.join "/" (c :: cs)) = false.
Proof.
  intros Hc. destruct c as [|x c]; [discriminate|].
  destruct cs; reflexivity.
Qed.

Lemma join_first_char c cs :
  FS.is_name c = true -> startswith (PyStr.join "/" (c :: cs)) "/" = false.
Proof.
  intros Hc. pose proof (name_slash_free c Hc) as Hs.
  destruct c as [|x c]; [discriminate|].
  apply slash_free_cons in Hs as [Hx _].
  destruct cs; simpl; rewrite ?append_cons; simpl; rewrite Hx; reflexivity.
Qed.

Lemma endswith_char_app a b c :
  is_empty b = false -> endswith_char (a +:+ b) c = endswith_char b c.
Proof.
  intros Hb. induction a as [|x a IH]; [reflexivity|].
  rewrite append_cons. simpl.
  destruct (a +:+ b) eqn:E; [|exact IH].
  destruct a; [|discriminate]. change ("" +:+ b) with b in E.
  rewrite E in Hb. discriminate.
Qed.

Lemma endswith_slash_free c :
  contains "/" c = false -> endswith_char c "/" = false.
Proof.
  induction c as [|x c IH]; [reflexivity|].
  intros [Hx Hc]%slash_free_cons. simpl.
  destruct c; [exact Hx|]. exact (IH Hc).
Qed.

Lemma endswith_join cs :
  cs <> [] -> forallb FS.is_name cs = true ->
  endswith_char (PyStr.join "/" cs) "/" = false.
Proof.
  induction cs as [|c cs IH]; [congruence|]. intros _ H.
  simpl in H. apply andb_true_iff in H as [Hc Hcs].
  destruct cs as [|d cs].
  - apply endswith_slash_free, name_slash_free, Hc.
  - rewrite join_cons. simpl in Hcs. apply andb_true_iff in Hcs as [Hd Hcs].
    rewrite endswith_char_app by reflexivity.
    rewrite (endswith_char_app "/") by (apply join_not_empty, Hd).
    apply IH; [congruence|]. simpl. rewrite Hd, Hcs. reflexivity.
Qed.

Lemma root_of_cons cs : Props.root_of cs = String "/" (PyStr.join "/" cs).
Proof. reflexivity. Qed.

Lemma initial_slashes_root c cs rest :
  FS.is_name c = true ->
  initial_slashes (Props.root_of (c :: cs) +:+ rest) = 1.
Proof.
  intros Hc. rewrite root_of_cons, append_cons.
  pose proof (join_first_char c cs Hc) as H.
  destruct (PyStr.join "/" (c :: cs)) as [|x t] eqn:E.
  - pose proof (join_not_empty c cs Hc) as H'. rewrite E in H'. discriminate.
  - rewrite append_cons. unfold initial_slashes. simpl in *.
    rewrite andb_true_r in H. rewrite H. reflexivity.
Qed.

Lemma split_root cs :
  cs <> [] -> forallb FS.is_name cs = true ->
  split_char "/" (Props.root_of cs) = "" :: cs.
Proof.
  intros Hne H. rewrite root_of_cons. simpl.
  rewrite split_join by assumption. reflexivity.
Qed.

Lemma norm_comps_names initial cs :
  forallb FS.is_name cs = true -> norm_comps initial cs [] = cs.
Proof.
  intros H. rewrite <- (app_nil_r cs) at 1.
  rewrite norm_comps_push by assumption. reflexivity.
Qed.

(** A path made of names is its own normal form. *)
Lemma normpath_root cs :
  cs <> [] -> forallb FS.is_name cs = true ->
  normpath (Props.root_of cs) = Props.root_of cs.
Proof.
  intros Hne H. destruct cs as [|c cs]; [congruence|].
  assert (Hc : FS.is_name c = true) by (simpl in H; apply andb_true_iff in H; tauto).
  unfold normpath.
  pose proof (initial_slashes_root c cs "" Hc) as Hi.
  rewrite append_empty_r in Hi. rewrite Hi.
  rewrite split_root by assumption.
  change (norm_comps 1 ("" :: c :: cs) []) with (norm_comps 1 (c :: cs) []).
  rewrite norm_comps_names by assumption. reflexivity.
Qed.

Lemma join_relative wd p :
  is_empty wd = false -> endswith_char wd "/" = false ->
  startswith p "/" = false ->
  PosixPath.join wd p = wd +:+ "/" +:+ p.
Proof.
  intros H1 H2 H3. unfold PosixPath.join. rewrite H1, H2, H3. reflexivity.
Qed.

Lemma join_root cs p :
  cs <> [] -> forallb FS.is_name cs = true -> startswith p "/" = false ->
  PosixPath.join (Props.root_of cs) p = Props.root_of cs +:+ "/" +:+ p.
Proof.
  intros Hne H Hp. apply join_relative; [reflexivity| |exact Hp].
  unfold Props.root_of.
  destruct cs as [|c cs]; [congruence|].
  assert (Hc : FS.is_name c = true) by (simpl in H; apply andb_true_iff in H; tauto).
  rewrite (endswith_char_app "/") by (apply join_not_empty, Hc).
  apply endswith_join; assumption.
Qed.


Lemma join_app_nonempty pre x xs :
  PyStr.join "/" (pre ++ x :: xs)
  = PyStr.join "/" (pre ++ [""]) +:+ PyStr.join "/" (x :: xs).
Proof.
  induction pre as [|c pre IH]; [reflexivity|].
  destruct pre as [|d pre].
  - simpl app. rewrite !join_cons. change (PyStr.join "/" [""]) with "".
    rewrite append_empty_r, !append_assoc. reflexivity.
  - change ((c :: d :: pre) ++ x :: xs) with (c :: d :: (pre ++ x :: xs)).
    change ((c :: d :: pre) ++ [""]) with (c :: d :: (pre ++ [""])).
    rewrite !join_cons. change (d :: pre ++ x :: xs) with ((d :: pre) ++ x :: xs).
    rewrite IH. change ((d :: pre) ++ [""]) with (d :: pre ++ [""]).
    rewrite !append_assoc. reflexivity.
Qed.







End PathFacts.

(** ** The file-access guard *)

Section AccessLog.
Import PyStr FS Files Props.

Variable P : string -> Prop.







Lemma calls_only_anything {A} (Q : A -> Prop) (m : io A) :
  calls_only P Q m -> calls_only P anything m.
Proof.
  intros Hm fs log H. destruct (Hm fs log H) as [Hlog _].
  split; [exact Hlog|]. destruct (m fs log) as [[[?|?] ?] ?]; exact I.
Qed.


End AccessLog.


Section AccessLogPrimitives.
Import PyStr FS Files Props.

Variable P : string -> Prop.










End AccessLogPrimitives.

Section AccessLogManage.
Import PyStr FS Files Props.



End AccessLogManage.

Section FileGuard.
Import PyStr FS Files.

Lemma rejected_without_access (self : FileManager) act p text fs :
  guard self p = false ->
  manage_file self act p text fs = (failed p path_escape_error, fs, []).
Proof.
  intros H. unfold manage_file, manage_file_body. rewrite H. reflexivity.
Qed.




(** The guard compares characters, not names: [/home/user2] begins with
    [/home/user], so a file of the neighbouring directory is read through
    the manager of [/home/user]. *)
Lemma sibling_directory_is_read :
  let root := "/home/user" in
  let '(r, _, log) :=
    manage_file {| working_dir := root |} "read" "../user2/notes.txt" None
                Props.sample_fs in
  Props.within root (PosixPath.join root "../user2/notes.txt") = false /\
  success r = true /\ content r = Some "secret" /\
  log = [ {| op := Exists; target := "/home/user/../user2/notes.txt" |};
          {| op := Isdir; target := "/home/user/../user2/notes.txt" |};
          {| op := OpenRead; target := "/home/user/../user2/notes.txt" |} ].
Proof. vm_compute. repeat split. Qed.

Lemma is_dir_at_delete fs place text cur :
  node_at fs place = Some (File text) ->
  is_dir_at fs cur = true ->
  is_dir_at (with_tree fs (delete place (tree fs))) cur = true.
Proof.
  intros Hfile Hdir. unfold is_dir_at, node_at in *.
  destruct cur as [|c cur]; [reflexivity|]. cbn [tree with_tree].
  destruct (decide (place = c :: cur)) as [->|Hne].
  - rewrite Hfile in Hdir. discriminate.
  - rewrite lookup_delete_ne by exact Hne. exact Hdir.
Qed.

Lemma walk_delete fs place text comps : forall cur loc,
  node_at fs place = Some (File text) ->
  walk fs cur comps = Some loc ->
  walk (with_tree fs (delete place (tree fs))) cur comps = Some loc.
Proof.
  induction comps as [|comp rest IH]; intros cur loc Hfile Hwalk;
    [exact Hwalk|].
  cbn [walk] in *. destruct (is_dir_at fs cur) eqn:E; [|discriminate].
  rewrite (is_dir_at_delete fs place text cur Hfile E).
  apply IH; assumption.
Qed.

Lemma lookup_after_delete fs path place text :
  locate fs path = Some place ->
  node_at fs place = Some (File text) ->
  lookup_path (with_tree fs (delete place (tree fs))) path = None.
Proof.
  intros Hloc Hfile. unfold lookup_path, locate in *.
  destruct (is_empty path); [discriminate|].
  change (start_of (with_tree fs (delete place (tree fs))) path)
    with (start_of fs path).
  rewrite (walk_delete fs place text _ _ _ Hfile Hloc).
  destruct place as [|c place]; [discriminate|].
  cbn [node_at with_tree tree]. apply lookup_delete_eq.
Qed.

(** C9. For a path that passes the guard of the working directory,
    [manage_file("delete", path)] returns a failure value when the resolved
    path does not exist, returns a failure value when it is a directory
    (nothing is removed), and otherwise removes the file, which then no
    longer exists, and reports success. *)
Theorem delete_outcomes (self : FileManager) (p : string) (text : option string)
    (fs : filesystem) :
  let full_path := PosixPath.join (working_dir self) p in
  guard self p = true ->
  (lookup_path fs full_path = None ->
   manage_file self "delete" p text fs
   = (failed p "File does not exist", fs,
      [{| op := Exists; target := full_path |}])) /\
  (lookup_path fs full_path = Some Dir ->
   manage_file self "delete" p text fs
   = (failed p "Cannot delete directories", fs,
      [{| op := Exists; target := full_path |};
       {| op := Isdir; target := full_path |}])) /\
  (forall place old,
      locate fs full_path = Some place ->
      node_at fs place = Some (File old) ->
      let fs' := with_tree fs (delete place (tree fs)) in
      manage_file self "delete" p text fs
      = (done_action p "delete", fs',
         [{| op := Exists; target := full_path |};
          {| op := Isdir; target := full_path |};
          {| op := Unlink; target := full_path |}]) /\
      lookup_path fs' full_path = None).
Proof.
  intros full_path Hguard.
  unfold manage_file, manage_file_body. rewrite Hguard.
  change (String.eqb "delete" "read") with false.
  change (String.eqb "delete" "write") with false.
  change (String.eqb "delete" "append") with false.
  change (String.eqb "delete" "delete") with true.
  fold full_path. cbv iota. cbn [negb].
  unfold bind, path_exists, path_isdir, unlink, bind, call, get_fs, ret,
    put_tree, raise.
  cbv beta. cbn [app].
  split; [|split].
  - intros H. rewrite H. reflexivity.
  - intros H. rewrite H. cbn [negb]. cbv beta iota. rewrite H. reflexivity.
  - intros place old Hloc Hfile.
    assert (Hl : lookup_path fs full_path = Some (File old))
      by (unfold lookup_path; rewrite Hloc; exact Hfile).
    rewrite Hl. cbn [negb]. cbv beta iota. rewrite Hl. cbv beta iota.
    rewrite Hloc, Hfile. split; [reflexivity|].
    exact (lookup_after_delete fs full_path place old Hloc Hfile).
Qed.

Lemma delete_outcomes_witness :
  let self := {| working_dir := "/home/user" |} in
  let gone := with_tree Props.sample_fs
                (delete ["home"; "user"; "a.txt"] (tree Props.sample_fs)) in
  manage_file self "delete" "nothing" None Props.sample_fs
  = (failed "nothing" "File does not exist", Props.sample_fs,
     [{| op := Exists; target := "/home/user/nothing" |}]) /\
  manage_file self "delete" "sub" None Props.sample_fs
  = (failed "sub" "Cannot delete directories", Props.sample_fs,
     [{| op := Exists; target := "/home/user/sub" |};
      {| op := Isdir; target := "/home/user/sub" |}]) /\
  lookup_path gone "/home/user/a.txt" = None.
Proof.
  intros self gone. split; [|split].
  - apply (proj1 (delete_outcomes self "nothing" None Props.sample_fs eq_refl)).
    vm_compute. reflexivity.
  - apply (proj1 (proj2 (delete_outcomes self "sub" None Props.sample_fs
                                         eq_refl))).
    vm_compute. reflexivity.
  - apply (proj2 (proj2 (delete_outcomes self "a.txt" None Props.sample_fs
                                         eq_refl))
             ["home"; "user"; "a.txt"] "hello");
      vm_compute; reflexivity.
Defined.

End FileGuard.

(** ** The plan parser *)

Section PlanParser.
Import PyStr Orchestrator Props.

Lemma split_once_unfold sep s :
  split_once sep s =
  if startswith s sep then [""; drop (String.length sep) s]
  else match s with
       | "" => [""]
       | String c s' =>
           match split_once sep s' with
           | [a; b] => [String c a; b]
           | _ => [s]
           end
       end.
Proof. destruct s; reflexivity. Qed.

Lemma startswith_drop s p :
  startswith s p = true -> s = p +:+ drop (String.length p) s.
Proof.
  revert s. induction p as [|b p IH]; intros s H; [reflexivity|].
  destruct s as [|a s]; [discriminate|]. cbn [startswith] in H.
  apply andb_true_iff in H as [Hab H]. apply Ascii.eqb_eq in Hab. subst b.
  cbn [String.length drop]. change (String a p +:+ drop (String.length p) s)
    with (String a (p +:+ drop (String.length p) s)).
  f_equal. exact (IH s H).
Qed.

Lemma startswith_append p r : startswith (p +:+ r) p = true.
Proof.
  induction p as [|b p IH]; [reflexivity|].
  change (String b p +:+ r) with (String b (p +:+ r)). cbn [startswith].
  rewrite Ascii.eqb_refl. exact IH.
Qed.

(** [split_once] cuts at the first occurrence of the separator. *)
Lemma split_once_first sep s a b :
  split_once sep s = [a; b] -> after_first sep s b.
Proof.
  revert a. induction s as [|c s IH]; intros a H; rewrite split_once_unfold in H.
  - destruct (startswith "" sep) eqn:E; [|discriminate].
    injection H as <- <-. exists "". split; [exact (startswith_drop _ _ E)|].
    intros; cbn; lia.
  - destruct (startswith (String c s) sep) eqn:E.
    + injection H as <- <-. exists "". split; [exact (startswith_drop _ _ E)|].
      intros; cbn; lia.
    + destruct (split_once sep s) as [|a0 [|b0 [|? ?]]] eqn:Es; try discriminate.
      injection H as <- <-.
      destruct (IH a0 eq_refl) as (before & Heq & Hmin).
      exists (String c before). split.
      * rewrite Heq at 1. reflexivity.
      * intros before' d' H'. destruct before' as [|c' before'].
        { change ("" +:+ sep +:+ d') with (sep +:+ d') in H'.
          rewrite H', startswith_append in E. discriminate. }
        change (String c' before' +:+ sep +:+ d')
          with (String c' (before' +:+ sep +:+ d')) in H'.
        injection H' as _ H'. specialize (Hmin _ _ H'). cbn. lia.
Qed.

Lemma split_once_contains sep s :
  contains sep s = true -> exists a b, split_once sep s = [a; b].
Proof.
  induction s as [|c s IH]; intros H; rewrite split_once_unfold.
  - cbn [contains] in H. rewrite orb_false_r in H. rewrite H. eauto.
  - cbn [contains] in H. destruct (startswith (String c s) sep); [eauto|].
    destruct (IH H) as (a & b & ->). eauto.
Qed.

Lemma header_splits line :
  is_header line = true -> exists n d, split_once ". " line = [n; d].
Proof.
  unfold is_header. destruct line as [|c line]; [discriminate|].
  intros [_ H]%andb_true_iff. apply split_once_contains, H.
Qed.


Lemma other_line_step raw rest steps cur subs :
  is_header (strip raw) = false ->
  exists subs', parse_lines (raw :: rest) steps cur subs
                = parse_lines rest steps cur subs'.
Proof.
  intros H. cbn [parse_lines]. rewrite H.
  destruct (is_empty (strip raw)); [eauto|].
  destruct (is_bullet (strip raw)); [|eauto].
  destruct (negb (is_empty (strip (drop 1 (strip raw)))) && is_open cur); eauto.
Qed.


Lemma omap_cons {A B} (f : A -> option B) x l :
  omap f (x :: l) = match f x with Some y => y :: omap f l | None => omap f l end.
Proof. reflexivity. Qed.




Lemma parse_lines_no_header lines : forall subs,
  (forall raw, In raw lines -> is_header (strip raw) = false) ->
  parse_lines lines [] None subs = [].
Proof.
  induction lines as [|raw rest IH]; intros subs H; [reflexivity|].
  destruct (other_line_step raw rest [] None subs) as (subs' & ->).
  - apply H. left. reflexivity.
  - apply IH. intros r Hr. apply H. right. exact Hr.
Qed.



(** C6, amended. While a step is open, a non-blank line that is not a
    header and begins with [-] or [*] appends its trimmed remainder to the
    open step's sub-tasks when that remainder is not empty; when the
    remainder is empty the line is ignored. *)
Theorem bullet_appends_nonempty_remainder raw rest steps d subs :
  let line := strip raw in
  let subtask := strip (drop 1 line) in
  is_empty line = false ->
  is_header line = false ->
  is_bullet line = true ->
  (subtask <> "" ->
   parse_lines (raw :: rest) steps (Some d) subs
   = parse_lines rest steps (Some d) (subs ++ [subtask])) /\
  (subtask = "" ->
   parse_lines (raw :: rest) steps (Some d) subs
   = parse_lines rest steps (Some d) subs).
Proof.
  intros line subtask H1 H2 H3. cbn [parse_lines].
  fold line. rewrite H1, H2, H3. fold subtask. split; intros H.
  - destruct subtask; [congruence|]. reflexivity.
  - rewrite H. reflexivity.
Qed.

Lemma bullet_appends_nonempty_remainder_witness :
  parse_lines ["- sub1"; "-"] [] (Some "Step A") []
  = [ {| description := "Step A"; subtasks := ["sub1"]; status := "pending" |} ].
Proof.
  refine (eq_trans (proj1 (bullet_appends_nonempty_remainder
                             "- sub1" ["-"] [] "Step A" []
                             eq_refl eq_refl eq_refl) _) _).
  - vm_compute. discriminate.
  - refine (eq_trans (proj2 (bullet_appends_nonempty_remainder
                               "-" [] [] "Step A" _
                               eq_refl eq_refl eq_refl) _) _); reflexivity.
Defined.

(** The line ["-"] is a bullet with an empty remainder, and nothing is
    appended for it. *)
Lemma bullet_with_empty_remainder_not_appended :
  ~ (forall raw rest steps d subs,
        is_empty (strip raw) = false ->
        is_header (strip raw) = false ->
        is_bullet (strip raw) = true ->
        parse_lines (raw :: rest) steps (Some d) subs
        = parse_lines rest steps (Some d)
                      (subs ++ [strip (drop 1 (strip raw))])).
Proof.
  intros H.
  specialize (H "-" [] [] "Step A" [] eq_refl eq_refl eq_refl).
  vm_compute in H. discriminate.
Qed.

End PlanParser.

(** ** Plan execution *)

Section PlanExecution.
Import PyStr Orchestrator Props.

Variable gc : nat -> string -> string.
Variable sim : string -> bool -> list tool_execution.

Lemma run_steps_spec todo : forall self yolo total i overall,
  match run_steps gc sim self yolo total i todo overall with
  | (recs, ov, _, _) =>
      map step_num recs = seq (i + 1) (length recs) /\
      map record_description recs
      = map description (firstn (length recs) todo) /\
      Forall (well_recorded sim yolo) recs /\
      ((ov = "failed" /\ yolo = false /\
        exists pre last, recs = pre ++ [last] /\ record_status last = "failed" /\
                         Forall not_failed pre)
       \/ (ov = overall /\ length recs = length todo /\
           (yolo = false -> Forall not_failed recs)))
  end.
Proof.
  induction todo as [|s rest IH]; intros self yolo total i overall.
  - cbn. split; [reflexivity|]. split; [reflexivity|]. split; [constructor|].
    right. repeat split. constructor.
  - cbn [run_steps].
    destruct (execute_step gc sim self s (i + 1) total yolo) as [r self1] eqn:E.
    assert (Hr : well_recorded sim yolo
                   {| step_num := i + 1; record_description := description s;
                      record_result := r; record_status := result_status r |}).
    { unfold execute_step in E. injection E as <- _. repeat split. }
    destruct (String.eqb (result_status r) "failed" && negb yolo) eqn:B.
    + apply andb_true_iff in B as [B1 B2].
      apply String.eqb_eq in B1. apply negb_true_iff in B2.
      cbn. repeat split; [constructor; [exact Hr|constructor]|].
      left. repeat split; [exact B2|]. eexists [], _.
      repeat split; [exact B1|constructor].
    + specialize (IH self1 yolo total (S i) overall).
      destruct (run_steps gc sim self1 yolo total (S i) rest overall)
        as [[[recs ov] rest'] self2].
      destruct IH as (H1 & H2 & H3 & H4).
      assert (Hnf : yolo = false ->
                    not_failed {| step_num := i + 1;
                                  record_description := description s;
                                  record_result := r;
                                  record_status := result_status r |}).
      { intros ->. rewrite andb_true_r in B. unfold not_failed. cbn.
        apply String.eqb_neq, B. }
      cbn [map length firstn seq]. repeat split.
      * cbn. f_equal. exact H1.
      * cbn. f_equal. exact H2.
      * constructor; assumption.
      * destruct H4 as [(Ha & Hb & pre & last & Hc & Hd & He)|(Ha & Hb & Hc)].
        { left. repeat split; [exact Ha|exact Hb|].
          eexists (_ :: pre), last. repeat split.
          - rewrite Hc. reflexivity.
          - exact Hd.
          - constructor; [exact (Hnf Hb)|exact He]. }
        { right. repeat split; [exact Ha|cbn; f_equal; exact Hb|].
          intros Hy. constructor; [exact (Hnf Hy)|exact (Hc Hy)]. }
Qed.


Lemma forallb_success (tes : list tool_execution) :
  forallb success tes = true <-> Forall (fun te => success te = true) tes.
Proof.
  rewrite forallb_forall, Forall_forall. split; intros H x Hx; apply H.
  - apply list_elem_of_In, Hx.
  - apply list_elem_of_In, Hx.
Qed.

(** C7. The status of an executed step is completed exactly when every
    tool execution of the step succeeded, and failed otherwise; a step
    with no tool execution is completed. *)
Theorem step_status_from_tools (self : orchestrator) (s : step)
    (num total_steps : nat) (yolo_mode : bool) :
  let r := fst (execute_step gc sim self s num total_steps yolo_mode) in
  tool_executions r = sim (execution_text r) yolo_mode /\
  (result_status r = "completed" <->
   Forall (fun te => success te = true) (tool_executions r)) /\
  (result_status r = "failed" <->
   ~ Forall (fun te => success te = true) (tool_executions r)) /\
  (tool_executions r = [] -> result_status r = "completed").
Proof.
  cbn [execute_step fst result_status tool_executions execution_text].
  set (tes := sim _ yolo_mode).
  split; [reflexivity|]. rewrite <- forallb_success.
  destruct (forallb success tes) eqn:E.
  - repeat split; try discriminate; try reflexivity. intros H. exfalso. auto.
  - repeat split; try discriminate; try reflexivity.
    intros ->. discriminate.
Qed.


End PlanExecution.

Section Reference.
Import PyStr Orchestrator Props.

Lemma simulated_success text yolo_mode :
  forallb success (_simulate_tool_execution text yolo_mode) = true.
Proof.
  unfold _simulate_tool_execution. induction (tool_calls_of text) as [|c l IH];
    [reflexivity|exact IH].
Qed.

Lemma step_status_from_tools_witness :
  result_status
    (fst (execute_step quiet_completion failing_shell fresh
                       (pending "think" []) 1 1 false))
  = "completed".
Proof.
  apply (proj2 (proj2 (proj2 (step_status_from_tools
           quiet_completion failing_shell fresh (pending "think" []) 1 1 false)))).
  reflexivity.
Defined.


(** C4. The reference dispatch reports success for every tool it finds in
    a response, so every executed step is completed, the loop of
    [execute_plan] never stops early, and the plan result is completed
    with one record per step of the plan. *)
Theorem reference_dispatch_always_completes :
  (forall text yolo_mode,
      Forall (fun te => success te = true)
             (_simulate_tool_execution text yolo_mode)) /\
  (forall gc self s num total_steps yolo_mode,
      result_status
        (fst (execute_step gc _simulate_tool_execution self s num total_steps
                           yolo_mode))
      = "completed") /\
  (forall gc self plan yolo_mode,
      let r := fst (fst (execute_plan gc _simulate_tool_execution self plan
                                      yolo_mode)) in
      overall_status r = "completed" /\
      length (steps r) = length plan /\
      map step_num (steps r) = seq 1 (length plan) /\
      map record_description (steps r) = map description plan /\
      Forall (fun x => record_status x = "completed") (steps r)).
Proof.
  split; [|split].
  - intros text yolo_mode. apply Forall_forall. intros te Hte.
    pose proof (simulated_success text yolo_mode) as H.
    rewrite forallb_forall in H. apply H, list_elem_of_In, Hte.
  - intros gc self s num total_steps yolo_mode.
    cbn [execute_step fst result_status]. rewrite simulated_success. reflexivity.
  - intros gc self plan yolo_mode. unfold execute_plan.
    pose proof (run_steps_spec gc _simulate_tool_execution plan self yolo_mode
                               (length plan) 0 "in_progress") as H.
    destruct (run_steps gc _simulate_tool_execution self yolo_mode (length plan)
                        0 plan "in_progress") as [[[recs ov] plan'] self'].
    destruct H as (H1 & H2 & H3 & H4). cbn [fst steps overall_status].
    assert (Hc : Forall (fun x => record_status x = "completed") recs).
    { eapply Forall_impl; [exact H3|]. intros x (Ha & Hb & Hc).
      rewrite Ha, Hb, Hc, simulated_success. reflexivity. }
    destruct H4 as [(_ & _ & pre & last & -> & Hl & _)|(-> & Hn & _)].
    + exfalso. apply Forall_app in Hc as [_ Hc].
      apply Forall_cons in Hc as [Hc _]. rewrite Hc in Hl. discriminate.
    + rewrite Hn in H1, H2. rewrite firstn_all in H2.
      repeat split; assumption.
Qed.

End Reference.

(** ** More on strings *)

Section SubstringFacts.
Import PyStr.

Lemma startswith_iff s p :
  startswith s p = true <-> exists post, s = p +:+ post.
Proof.
  split.
  - intros H. exists (drop (String.length p) s). apply startswith_drop, H.
  - intros [post ->]. apply startswith_append.
Qed.

(** [sub in s] holds exactly when [s] is [sub] with something before and
    something after it. *)
Lemma contains_iff sub s :
  contains sub s = true <-> exists pre post, s = pre +:+ sub +:+ post.
Proof.
  split.
  - induction s as [|c s IH]; cbn [contains]; intros H.
    + rewrite orb_false_r in H. apply startswith_iff in H as [post ->].
      exists "", post. reflexivity.
    + apply orb_true_iff in H as [H|H].
      * apply startswith_iff in H as [post ->]. exists "", post. reflexivity.
      * destruct (IH H) as (pre & post & ->). exists (String c pre), post.
        reflexivity.
  - intros (pre & post & ->). induction pre as [|c pre IH].
    + change ("" +:+ sub +:+ post) with (sub +:+ post).
      destruct (sub +:+ post) eqn:E; cbn [contains].
      * rewrite <- E, startswith_append. reflexivity.
      * rewrite <- E, startswith_append. reflexivity.
    + rewrite append_cons. cbn [contains]. rewrite IH. apply orb_true_r.
Qed.

Lemma contains_trans a b c :
  contains a b = true -> contains b c = true -> contains a c = true.
Proof.
  intros (p1 & q1 & ->)%contains_iff (p2 & q2 & ->)%contains_iff.
  apply contains_iff. exists (p2 +:+ p1), (q1 +:+ q2).
  rewrite !append_assoc. reflexivity.
Qed.

Lemma mem_In x l : mem x l = true <-> In x l.
Proof.
  unfold mem. rewrite existsb_exists. split.
  - intros (y & Hy & E). apply String.eqb_eq in E. subst. exact Hy.
  - intros H. exists x. split; [exact H|apply String.eqb_refl].
Qed.

Lemma rstrip_after_word w x :
  Words.no_space w = true -> rstrip (w +:+ x) = w +:+ rstrip x.
Proof.
  induction w as [|c w IH]; intros H; [reflexivity|].
  cbn [Words.no_space] in H. apply andb_true_iff in H as [Hc Hw].
  apply negb_true_iff in Hc. rewrite !append_cons. cbn [rstrip].
  rewrite Hc, andb_false_r, (IH Hw). reflexivity.
Qed.

Lemma lstrip_word c w x :
  isspace c = false -> lstrip (String c w +:+ x) = String c w +:+ x.
Proof. intros H. rewrite append_cons. cbn [lstrip]. rewrite H. reflexivity. Qed.

Lemma split_ws_from_word w : forall cur x,
  Words.no_space w = true ->
  split_ws_from cur (w +:+ x) = split_ws_from (cur +:+ w) x.
Proof.
  induction w as [|c w IH]; intros cur x H.
  - rewrite append_empty_r. reflexivity.
  - cbn [Words.no_space] in H. apply andb_true_iff in H as [Hc Hw].
    apply negb_true_iff in Hc. rewrite append_cons. cbn [split_ws_from].
    rewrite Hc, (IH _ _ Hw), append_assoc. reflexivity.
Qed.

(** The first token of a command that starts with a word and a space. *)
Lemma first_token w tail :
  Words.no_space w = true -> is_empty w = false ->
  exists parts, split_ws (strip (w +:+ " " +:+ tail)) = w :: parts.
Proof.
  intros Hw Hne. unfold strip, split_ws.
  rewrite rstrip_after_word by exact Hw.
  destruct w as [|c w]; [discriminate|].
  cbn [Words.no_space] in Hw. pose proof Hw as Hw'.
  apply andb_true_iff in Hw as [Hc _]. apply negb_true_iff in Hc.
  rewrite lstrip_word by exact Hc.
  rewrite split_ws_from_word by exact Hw'.
  change ("" +:+ String c w) with (String c w).
  destruct (rstrip (" " +:+ tail)) as [|d rest] eqn:E.
  - cbn. eauto.
  - assert (d = " "%char) as ->.
    { change (" " +:+ tail) with (String " " tail) in E. cbn [rstrip] in E.
      destruct (is_empty (rstrip tail) && isspace " "); congruence. }
    cbn [split_ws_from]. change (isspace " ") with true. cbn. eauto.
Qed.

End SubstringFacts.

(** ** More on the command policy *)

Section CommandPolicyMore.
Import PyStr Shell.

Lemma allowed_intro (self : ShellExecutor) (command base : string) parts :
  split_ws (strip command) = base :: parts ->
  (forall blocked, In blocked (blocked_commands self) ->
                   contains blocked command = false) ->
  allowed_commands self = [] \/ In base (allowed_commands self) ->
  is_command_allowed self command = true.
Proof.
  intros Hs Hb Ha. unfold is_command_allowed. rewrite Hs.
  destruct (existsb _ (blocked_commands self)) eqn:E.
  - apply existsb_exists in E as (b & Hin & Hc). rewrite (Hb b Hin) in Hc.
    discriminate.
  - destruct Ha as [->|Ha]; [reflexivity|].
    destruct (allowed_commands self) as [|a l] eqn:El; [reflexivity|].
    apply mem_In, Ha.
Qed.

(** X1. A command is allowed exactly when it has a first token, no
    blocked substring occurs anywhere in it, and the allow list is empty
    or holds that first token. *)
Theorem allowed_iff (self : ShellExecutor) (command : string) :
  is_command_allowed self command = true <->
  exists base parts,
    split_ws (strip command) = base :: parts /\
    (forall blocked, In blocked (blocked_commands self) ->
                     contains blocked command = false) /\
    (allowed_commands self = [] \/ In base (allowed_commands self)).
Proof.
  unfold is_command_allowed. split.
  - destruct (split_ws (strip command)) as [|base parts]; [discriminate|].
    destruct (existsb _ (blocked_commands self)) eqn:E; [discriminate|].
    intros H. exists base, parts. split; [reflexivity|]. split.
    + intros b Hb. destruct (contains b command) eqn:Eb; [|reflexivity].
      assert (existsb (fun b => contains b command) (blocked_commands self) = true)
        by (apply existsb_exists; eauto).
      congruence.
    + destruct (allowed_commands self) as [|a l]; [left; reflexivity|].
      right. apply mem_In, H.
  - intros (base & parts & Hs & Hb & Ha).
    exact (allowed_intro self command base parts Hs Hb Ha).
Qed.

Lemma allowed_iff_witness :
  exists base parts,
    split_ws (strip "  grep -n key notes.txt ") = base :: parts /\
    In base (allowed_commands Props.default_executor).
Proof.
  destruct (proj1 (allowed_iff Props.default_executor
                               "  grep -n key notes.txt ") eq_refl)
    as (base & parts & Hs & _ & [Hnil|Hin]); [discriminate|].
  exists base, parts. split; assumption.
Defined.

(** X2. Wrapping does not help: when a blocked substring occurs in a
    command, every longer command line that contains this command is
    rejected too, and [run_command] refuses it without handing it to the
    host, whatever the host is and with or without a sandbox. *)
Theorem blocked_inside_longer_command (self : ShellExecutor)
    (blocked inner outer : string) :
  In blocked (blocked_commands self) ->
  contains blocked inner = true ->
  contains inner outer = true ->
  is_command_allowed self outer = false /\
  forall h : host,
    run_command self h outer
    = Return (failure outer "This command is not allowed for security reasons.").
Proof.
  intros Hin Hb Hio.
  assert (H : is_command_allowed self outer = false).
  { unfold is_command_allowed.
    destruct (split_ws (strip outer)); [reflexivity|].
    rewrite (blocked_hit self outer blocked Hin (contains_trans _ _ _ Hb Hio)).
    reflexivity. }
  split; [exact H|]. intros h. unfold run_command. rewrite H. reflexivity.
Qed.

Lemma blocked_inside_longer_command_witness :
  run_command Props.default_executor (Words.quick_host 0)
              "ls && (mkfs.ext4 /dev/sda1) | cat"
  = Return (failure "ls && (mkfs.ext4 /dev/sda1) | cat"
                    "This command is not allowed for security reasons.").
Proof.
  apply (blocked_inside_longer_command Props.default_executor
           "mkfs" "mkfs.ext4 /dev/sda1" _);
    [simpl; tauto|reflexivity|reflexivity].
Defined.

(** X3. Only the first token is compared with the allow list: a command
    that starts with an allowed word followed by a space is allowed,
    whatever follows, as long as no blocked substring occurs in it. *)
Theorem only_first_token_is_checked (self : ShellExecutor) (base tail : string) :
  In base (allowed_commands self) ->
  Words.no_space base = true ->
  is_empty base = false ->
  (forall blocked, In blocked (blocked_commands self) ->
                   contains blocked (base +:+ " " +:+ tail) = false) ->
  is_command_allowed self (base +:+ " " +:+ tail) = true.
Proof.
  intros Hin Hw Hne Hb.
  destruct (first_token base tail Hw Hne) as [parts Hs].
  apply (allowed_intro self _ base parts Hs Hb). right. exact Hin.
Qed.

Lemma only_first_token_is_checked_witness :
  is_command_allowed Props.default_executor "ls ; scp notes.txt host:" = true.
Proof.
  apply (only_first_token_is_checked Props.default_executor "ls"
           "; scp notes.txt host:");
    [simpl; tauto|reflexivity|reflexivity|].
  intros blocked [<-|[<-|[<-|[<-|[<-|[]]]]]]; reflexivity.
Defined.

(** X4. The constructor never leaves a list empty: an absent or empty
    allow list or block list is replaced by the default one, so the block
    list cannot be switched off by configuring an empty list, and a command
    allowed by a constructed executor always has its first token in the
    allow list. The sandbox is on exactly when it was asked for, the
    container module is there and a client could be made. *)
Theorem constructor_lists host allowed blocked sandbox :
  let self := init host allowed blocked sandbox in
  allowed_commands self <> [] /\
  blocked_commands self <> [] /\
  (allowed = None \/ allowed = Some [] ->
   allowed_commands self = default_allowed) /\
  (blocked = None \/ blocked = Some [] ->
   blocked_commands self = default_blocked) /\
  (forall a l, allowed = Some (a :: l) -> allowed_commands self = a :: l) /\
  (forall b l, blocked = Some (b :: l) -> blocked_commands self = b :: l) /\
  (enable_sandbox self = true <->
   sandbox = true /\ DOCKER_AVAILABLE host = true /\ from_env_ok host = true) /\
  (forall command,
      is_command_allowed self command = true ->
      exists base parts, split_ws (strip command) = base :: parts /\
                         In base (allowed_commands self)).
Proof.
  cbn zeta. split; [|split; [|split; [|split; [|split; [|split; [|split]]]]]].
  - destruct allowed as [[|a l]|]; discriminate.
  - destruct blocked as [[|b l]|]; discriminate.
  - intros [->| ->]; reflexivity.
  - intros [->| ->]; reflexivity.
  - intros a l ->. reflexivity.
  - intros b l ->. reflexivity.
  - cbn [enable_sandbox init].
    destruct sandbox, (DOCKER_AVAILABLE host), (from_env_ok host); cbn;
      intuition discriminate.
  - intros command H. unfold is_command_allowed in H.
    destruct (split_ws (strip command)) as [|base parts]; [discriminate|].
    destruct (existsb _ _); [discriminate|].
    exists base, parts. split; [reflexivity|].
    destruct (allowed_commands (init host allowed blocked sandbox)) as [|a l] eqn:E.
    + destruct allowed as [[|? ?]|]; discriminate.
    + apply mem_In, H.
Qed.

Lemma constructor_lists_witness :
  blocked_commands
    (init {| DOCKER_AVAILABLE := true; from_env_ok := false |}
          (Some ["rm"]) (Some []) true)
  = default_blocked.
Proof.
  apply (proj1 (proj2 (proj2 (proj2 (constructor_lists
           {| DOCKER_AVAILABLE := true; from_env_ok := false |}
           (Some ["rm"]) (Some []) true))))).
  right. reflexivity.
Defined.



(** X6. The shape of every value of [run_command]: it names the command
    it was given; it carries either an error text or, together, the
    output, the error output and the return code, never both; and it is
    successful exactly when it carries the return code 0. *)
Theorem command_result_shape (self : ShellExecutor) (h : host) (cmd : string)
    (r : command_result) :
  run_command self h cmd = Return r ->
  command r = cmd /\
  (success r = true <-> returncode r = Some 0%Z) /\
  ((is_Some (error r) /\ stdout r = None /\ stderr r = None /\
    returncode r = None) \/
   (error r = None /\ is_Some (stdout r) /\ is_Some (stderr r) /\
    is_Some (returncode r))).
Proof.
  assert (Hf : forall msg, let r := failure cmd msg in
             command r = cmd /\
             (success r = true <-> returncode r = Some 0%Z) /\
             ((is_Some (error r) /\ stdout r = None /\ stderr r = None /\
               returncode r = None) \/
              (error r = None /\ is_Some (stdout r) /\ is_Some (stderr r) /\
               is_Some (returncode r)))).
  { intros msg. cbn. split; [reflexivity|]. split; [split; discriminate|].
    left. repeat split; eauto. }
  assert (Hd : forall rc out err, let r := finished (rc =? 0)%Z cmd out err rc in
             command r = cmd /\
             (success r = true <-> returncode r = Some 0%Z) /\
             ((is_Some (error r) /\ stdout r = None /\ stderr r = None /\
               returncode r = None) \/
              (error r = None /\ is_Some (stdout r) /\ is_Some (stderr r) /\
               is_Some (returncode r)))).
  { intros rc out err. cbn. split; [reflexivity|]. split.
    - rewrite Z.eqb_eq. split; [intros ->; reflexivity|congruence].
    - right. repeat split; eauto. }
  unfold run_command, _run_local, _run_sandboxed, subprocess_run.
  destruct (negb (is_command_allowed self cmd)).
  { intros [= <-]. apply Hf. }
  destruct (enable_sandbox self).
  - destruct (docker_run h cmd) as [[text|]|msg]; intros [= <-];
      [apply (Hd 0%Z)|apply Hf|apply Hf].
  - destruct (spawn h cmd) as [elapsed rc out err| |msg].
    + destruct (60 * 1000 <? elapsed)%N; intros [= <-]; [apply Hf|apply Hd].
    + intros [= <-]. apply Hf.
    + intros [= <-]. apply Hf.
Qed.

Lemma command_result_shape_witness :
  let r := finished true "echo hi" "out" "err" 0 in
  command r = "echo hi" /\ (success r = true <-> returncode r = Some 0%Z).
Proof.
  destruct (command_result_shape Props.default_executor (Words.quick_host 0)
              "echo hi" (finished true "echo hi" "out" "err" 0) eq_refl)
    as (H1 & H2 & _).
  split; assumption.
Defined.

End CommandPolicyMore.

(** ** More on the file manager *)

Section FileSystemFacts.
Import PyStr FS Files Words.

Lemma file_is_not_root fs place text :
  node_at fs place = Some (File text) -> place <> [].
Proof. intros H ->. discriminate. Qed.

Lemma node_at_insert_eq fs place n :
  place <> [] -> node_at (with_tree fs (<[place := n]> (tree fs))) place = Some n.
Proof.
  intros H. destruct place; [congruence|]. cbn. apply lookup_insert_eq.
Qed.

Lemma node_at_insert_ne fs place n q :
  q <> place -> node_at (with_tree fs (<[place := n]> (tree fs))) q = node_at fs q.
Proof.
  intros H. destruct q; [reflexivity|]. cbn.
  rewrite lookup_insert_ne by congruence. reflexivity.
Qed.

(** Directories stay directories: then every path that resolved still
    resolves, to the same place. *)
Lemma walk_mono fs fs' comps : forall cur loc,
  (forall q, is_dir_at fs q = true -> is_dir_at fs' q = true) ->
  walk fs cur comps = Some loc -> walk fs' cur comps = Some loc.
Proof.
  induction comps as [|comp rest IH]; intros cur loc Hd Hw; [exact Hw|].
  cbn [walk] in *. destruct (is_dir_at fs cur) eqn:E; [|discriminate].
  rewrite (Hd cur E). apply IH; assumption.
Qed.

Lemma locate_mono fs fs' path loc :
  cwd fs' = cwd fs ->
  (forall q, is_dir_at fs q = true -> is_dir_at fs' q = true) ->
  locate fs path = Some loc -> locate fs' path = Some loc.
Proof.
  intros Hc Hd. unfold locate, start_of. rewrite Hc.
  destruct (is_empty path); [discriminate|]. apply walk_mono, Hd.
Qed.

Lemma extends_dirs fs fs' :
  extends fs fs' -> forall q, is_dir_at fs q = true -> is_dir_at fs' q = true.
Proof.
  intros [_ H] q. unfold is_dir_at. specialize (H q).
  destruct (node_at fs q) as [[t|]|]; try discriminate.
  intros _. rewrite H. reflexivity.
Qed.

Lemma extends_refl fs : extends fs fs.
Proof.
  split; [reflexivity|]. intros q. destruct (node_at fs q) as [[t|]|]; eauto.
Qed.

Lemma extends_trans fs1 fs2 fs3 :
  extends fs1 fs2 -> extends fs2 fs3 -> extends fs1 fs3.
Proof.
  intros [C1 H1] [C2 H2]. split; [congruence|]. intros q.
  specialize (H1 q). specialize (H2 q).
  destruct (node_at fs1 q) as [[t|]|]; [| |exact I].
  - destruct H1 as [t' H1]. rewrite H1 in H2. exact H2.
  - rewrite H1 in H2. exact H2.
Qed.

Lemma extends_insert_dir fs place :
  node_at fs place = None ->
  extends fs (with_tree fs (<[place := Dir]> (tree fs))).
Proof.
  intros Hn. split; [reflexivity|]. intros q.
  destruct (decide (q = place)) as [->|Hne]; [rewrite Hn; exact I|].
  rewrite node_at_insert_ne by exact Hne.
  destruct (node_at fs q) as [[t|]|]; eauto.
Qed.

Lemma extends_insert_file fs place text :
  is_dir_at fs place = false ->
  extends fs (with_tree fs (<[place := File text]> (tree fs))).
Proof.
  intros Hn. split; [reflexivity|]. intros q.
  destruct (decide (q = place)) as [->|Hne].
  - unfold is_dir_at in Hn. destruct (node_at fs place) as [[t|]|] eqn:E;
      [|discriminate|exact I].
    exists text. apply node_at_insert_eq. intros ->. discriminate.
  - rewrite node_at_insert_ne by exact Hne.
    destruct (node_at fs q) as [[t|]|]; eauto.
Qed.

(** [os.makedirs] only adds directories. *)
Lemma make_dirs_extends comps : forall fs cur fs',
  make_dirs fs cur comps = Some fs' -> extends fs fs'.
Proof.
  induction comps as [|comp rest IH]; intros fs cur fs' H; cbn [make_dirs] in H.
  - destruct (node_at fs cur) as [[t|]|] eqn:E; [discriminate| |].
    + injection H as <-. apply extends_refl.
    + injection H as <-. apply extends_insert_dir, E.
  - destruct (node_at fs cur) as [[t|]|] eqn:E; [discriminate| |].
    + exact (IH _ _ _ H).
    + eapply extends_trans; [apply extends_insert_dir, E|exact (IH _ _ _ H)].
Qed.

Lemma with_tree_same fs fs' :
  cwd fs' = cwd fs -> os_stat fs' = os_stat fs -> with_tree fs (tree fs') = fs'.
Proof. destruct fs, fs'. cbn. intros -> ->. reflexivity. Qed.

Lemma make_dirs_stat comps : forall fs cur fs',
  make_dirs fs cur comps = Some fs' -> os_stat fs' = os_stat fs.
Proof.
  induction comps as [|comp rest IH]; intros fs cur fs' H; cbn [make_dirs] in H;
    destruct (node_at fs cur) as [[t|]|]; try discriminate.
  - injection H as <-. reflexivity.
  - injection H as <-. reflexivity.
  - exact (IH _ _ _ H).
  - rewrite (IH _ _ _ H). reflexivity.
Qed.


End FileSystemFacts.

Section FileActions.
Import PyStr FS Files Words.

Lemma run_exists p fs log :
  path_exists p fs log
  = (inr (match lookup_path fs p with Some _ => true | None => false end),
     fs, log ++ [acc Exists p]).
Proof. reflexivity. Qed.

Lemma run_isdir p fs log :
  path_isdir p fs log
  = (inr (match lookup_path fs p with Some Dir => true | _ => false end),
     fs, log ++ [acc Isdir p]).
Proof. reflexivity. Qed.

Lemma run_read_text p fs log :
  read_text p fs log
  = (match lookup_path fs p with
     | Some (File text) => inr text
     | Some Dir => inl "Is a directory"
     | None => inl "No such file or directory"
     end, fs, log ++ [acc OpenRead p]).
Proof.
  unfold read_text, bind, call, get_fs.
  destruct (lookup_path fs p) as [[t|]|]; reflexivity.
Qed.

Lemma run_makedirs p fs log :
  makedirs p fs log
  = if is_empty p then (inl "No such file or directory", fs, log ++ [acc Makedirs p])
    else match make_dirs fs (start_of fs p) (split_char "/" p) with
         | Some fs1 => (inr tt, with_tree fs (tree fs1), log ++ [acc Makedirs p])
         | None => (inl "File exists", fs, log ++ [acc Makedirs p])
         end.
Proof.
  unfold makedirs, bind, call, get_fs.
  destruct (is_empty p); [reflexivity|].
  destruct (make_dirs fs (start_of fs p) (split_char "/" p)); reflexivity.
Qed.

Lemma run_write_text ap p text fs log :
  write_text ap p text fs log
  = let log' := log ++ [acc (if ap then OpenAppend else OpenWrite) p] in
    match locate fs p with
    | Some pl =>
        match node_at fs pl with
        | Some Dir => (inl "Is a directory", fs, log')
        | Some (File old) =>
            (inr tt,
             with_tree fs (<[pl := File (if ap then old +:+ text else text)]> (tree fs)),
             log')
        | None => (inr tt, with_tree fs (<[pl := File text]> (tree fs)), log')
        end
    | None => (inl "No such file or directory", fs, log')
    end.
Proof.
  unfold write_text, bind, call, get_fs. cbv zeta.
  destruct (locate fs p) as [pl|]; [|reflexivity].
  destruct (node_at fs pl) as [[old|]|]; reflexivity.
Qed.

Lemma run_unlink p fs log :
  unlink p fs log
  = let log' := log ++ [acc Unlink p] in
    match locate fs p with
    | Some pl =>
        match node_at fs pl with
        | Some (File _) => (inr tt, with_tree fs (delete pl (tree fs)), log')
        | Some Dir => (inl "Is a directory", fs, log')
        | None => (inl "No such file or directory", fs, log')
        end
    | None => (inl "No such file or directory", fs, log')
    end.
Proof.
  unfold unlink, bind, call, get_fs. cbv zeta.
  destruct (locate fs p) as [pl|]; [|reflexivity].
  destruct (node_at fs pl) as [[old|]|]; reflexivity.
Qed.


(** [read] and [delete] of a path that names nothing. *)
Lemma missing_file (self : FileManager) p any fs :
  guard self p = true ->
  lookup_path fs (PosixPath.join (working_dir self) p) = None ->
  manage_file self "read" p any fs
  = (failed p "File does not exist", fs,
     [acc Exists (PosixPath.join (working_dir self) p)]) /\
  manage_file self "delete" p any fs
  = (failed p "File does not exist", fs,
     [acc Exists (PosixPath.join (working_dir self) p)]).
Proof.
  intros Hg Hl. unfold manage_file, manage_file_body. rewrite Hg.
  change (String.eqb "read" "read") with true.
  change (String.eqb "delete" "read") with false.
  change (String.eqb "delete" "write") with false.
  change (String.eqb "delete" "append") with false.
  change (String.eqb "delete" "delete") with true.
  cbv iota. cbn [negb]. unfold bind. rewrite run_exists, Hl.
  split; reflexivity.
Qed.

Lemma manage_file_store (self : FileManager) (ap : bool) p text :
  guard self p = true ->
  manage_file_body self (if ap then "append" else "write") p text
  = store ap (PosixPath.join (working_dir self) p) p text.
Proof.
  intros Hg. unfold manage_file_body. rewrite Hg. destruct ap; reflexivity.
Qed.

Lemma make_dirs_cwd comps : forall fs cur fs',
  make_dirs fs cur comps = Some fs' -> cwd fs' = cwd fs.
Proof. intros fs cur fs' H. exact (proj1 (make_dirs_extends _ _ _ _ H)). Qed.

(** [os.makedirs] changes no node that is there. *)
Lemma make_dirs_keeps comps : forall fs cur fs' q n,
  make_dirs fs cur comps = Some fs' ->
  node_at fs q = Some n -> node_at fs' q = Some n.
Proof.
  assert (Hi : forall fs cur q n,
             node_at fs cur = None -> node_at fs q = Some n ->
             node_at (with_tree fs (<[cur := Dir]> (tree fs))) q = Some n).
  { intros fs cur q n Hc Hq. rewrite node_at_insert_ne; [exact Hq|].
    intros ->. congruence. }
  induction comps as [|comp rest IH]; intros fs cur fs' q n H Hq;
    cbn [make_dirs] in H;
    destruct (node_at fs cur) as [[t|]|] eqn:E; try discriminate.
  - injection H as <-. exact Hq.
  - injection H as <-. apply Hi; assumption.
  - exact (IH _ _ _ _ _ H Hq).
  - apply (IH _ _ _ _ _ H). apply Hi; assumption.
Qed.


Lemma manage_file_returns (self : FileManager) act p text fs r fs' log :
  manage_file self act p text fs = (r, fs', log) ->
  success r = true ->
  manage_file_body self act p text fs [] = (inr r, fs', log).
Proof.
  unfold manage_file.
  destruct (manage_file_body self act p text fs []) as [[[msg|r0] fs0] log0].
  - intros [= <- <- <-]. discriminate.
  - intros [= <- <- <-] _. reflexivity.
Qed.

Lemma success_passed_guard (self : FileManager) act p text fs r fs' log :
  manage_file self act p text fs = (r, fs', log) ->
  success r = true -> guard self p = true.
Proof.
  intros H Hs. destruct (guard self p) eqn:E; [reflexivity|].
  rewrite (rejected_without_access self act p text fs E) in H.
  injection H as <- _ _. discriminate.
Qed.





Lemma delete_returns (self : FileManager) p text fs r fs' log :
  manage_file self "delete" p text fs = (r, fs', log) ->
  success r = true ->
  exists place old,
    locate fs (PosixPath.join (working_dir self) p) = Some place /\
    node_at fs place = Some (File old) /\
    fs' = with_tree fs (delete place (tree fs)).
Proof.
  intros H Hs. pose proof (success_passed_guard _ _ _ _ _ _ _ _ H Hs) as Hg.
  apply manage_file_returns in H; [|exact Hs].
  unfold manage_file_body in H. rewrite Hg in H.
  change (String.eqb "delete" "read") with false in H.
  change (String.eqb "delete" "write") with false in H.
  change (String.eqb "delete" "append") with false in H.
  change (String.eqb "delete" "delete") with true in H.
  cbv iota in H. cbn [negb] in H.
  set (full_path := PosixPath.join (working_dir self) p) in *.
  unfold bind at 1 in H. rewrite run_exists in H.
  destruct (lookup_path fs full_path) as [n|] eqn:El;
    [|injection H as <- _ _; discriminate].
  cbn [negb] in H. unfold bind at 1 in H. rewrite run_isdir, El in H.
  destruct n as [old|]; [|injection H as <- _ _; discriminate].
  unfold bind at 1 in H. rewrite run_unlink in H. cbv zeta in H.
  unfold lookup_path in El.
  destruct (locate fs full_path) as [place|]; [|discriminate].
  rewrite El in H. injection H as _ <- _. eauto.
Qed.

(** X9. What is deleted is gone: after a [delete] that reports success, a
    [read] and a second [delete] of the same path both fail with "File
    does not exist", and neither changes the file system. *)
Theorem delete_then_gone (self : FileManager) p text any fs r fs' log :
  manage_file self "delete" p text fs = (r, fs', log) ->
  success r = true ->
  manage_file self "read" p any fs'
  = (failed p "File does not exist", fs',
     [acc Exists (PosixPath.join (working_dir self) p)]) /\
  manage_file self "delete" p any fs'
  = (failed p "File does not exist", fs',
     [acc Exists (PosixPath.join (working_dir self) p)]).
Proof.
  intros H Hs. pose proof (success_passed_guard _ _ _ _ _ _ _ _ H Hs) as Hg.
  destruct (delete_returns _ _ _ _ _ _ _ H Hs) as (place & old & Hl & Hn & ->).
  apply missing_file; [exact Hg|].
  exact (lookup_after_delete fs _ place old Hl Hn).
Qed.

Lemma delete_then_gone_witness :
  let self := {| working_dir := "/home/user" |} in
  let out := manage_file self "delete" "a.txt" None Props.sample_fs in
  manage_file self "delete" "a.txt" None (snd (fst out))
  = (failed "a.txt" "File does not exist", snd (fst out),
     [acc Exists "/home/user/a.txt"]).
Proof.
  intros self out.
  apply (proj2 (delete_then_gone self "a.txt" None None Props.sample_fs
                  (fst (fst out)) (snd (fst out)) (snd out)
                  ltac:(subst out; destruct (manage_file _ _ _ _ _) as [[? ?] ?];
                        reflexivity)
                  ltac:(vm_compute; reflexivity))).
Defined.

End FileActions.

Section FileEffects.
Import PyStr FS Files Words.

Lemma keeps_ret {A} (a : A) : keeps_fs (ret a).
Proof. intros fs log. reflexivity. Qed.

Lemma keeps_raise {A} msg : keeps_fs (@raise A msg).
Proof. intros fs log. reflexivity. Qed.

Lemma keeps_bind {A B} (m : io A) (k : A -> io B) :
  keeps_fs m -> (forall a, keeps_fs (k a)) -> keeps_fs (bind m k).
Proof.
  intros Hm Hk fs log. unfold bind. specialize (Hm fs log).
  destruct (m fs log) as [[[msg|a] fs1] log1]; cbn in *; [exact Hm|].
  rewrite (Hk a fs1 log1). exact Hm.
Qed.

Lemma keeps_exists p : keeps_fs (path_exists p).
Proof. intros fs log. reflexivity. Qed.

Lemma keeps_isdir p : keeps_fs (path_isdir p).
Proof. intros fs log. reflexivity. Qed.

Lemma keeps_read_text p : keeps_fs (read_text p).
Proof. intros fs log. rewrite run_read_text. reflexivity. Qed.

Lemma keeps_listdir p : keeps_fs (listdir p).
Proof.
  intros fs log. unfold listdir, bind, call, get_fs.
  destruct (locate fs p) as [q|]; [|reflexivity].
  destruct (is_dir_at fs q); reflexivity.
Qed.

Lemma keeps_stat p : keeps_fs (stat p).
Proof.
  intros fs log. unfold stat, bind, call, get_fs.
  destruct (locate fs p) as [q|]; [|reflexivity].
  destruct (node_at fs q); reflexivity.
Qed.

Lemma keeps_list_entries full_path items : keeps_fs (list_entries full_path items).
Proof.
  induction items as [|item rest IH]; cbn [list_entries]; [apply keeps_ret|].
  apply keeps_bind; [apply keeps_stat|intros st].
  apply keeps_bind; [apply keeps_isdir|intros d].
  apply keeps_bind; [exact IH|intros more]. apply keeps_ret.
Qed.

Lemma grows_of_keeps {A} (m : io A) : keeps_fs m -> grows_fs m.
Proof. intros H fs log. rewrite H. apply extends_refl. Qed.

Lemma grows_bind {A B} (m : io A) (k : A -> io B) :
  grows_fs m -> (forall a, grows_fs (k a)) -> grows_fs (bind m k).
Proof.
  intros Hm Hk fs log. unfold bind. specialize (Hm fs log).
  destruct (m fs log) as [[[msg|a] fs1] log1]; cbn in *; [exact Hm|].
  eapply extends_trans; [exact Hm|apply Hk].
Qed.

Lemma grows_makedirs p : grows_fs (makedirs p).
Proof.
  intros fs log. rewrite run_makedirs.
  destruct (is_empty p); [apply extends_refl|].
  destruct (make_dirs fs _ _) as [fs1|] eqn:E; [|apply extends_refl].
  cbn [fst snd].
  rewrite (with_tree_same fs fs1 (make_dirs_cwd _ _ _ _ E)
             (make_dirs_stat _ _ _ _ E)).
  exact (make_dirs_extends _ _ _ _ E).
Qed.

Lemma grows_write_text ap p text : grows_fs (write_text ap p text).
Proof.
  intros fs log. rewrite run_write_text. cbv zeta.
  destruct (locate fs p) as [pl|]; [|apply extends_refl].
  destruct (node_at fs pl) as [[old|]|] eqn:E; cbn [fst snd];
    [|apply extends_refl|];
    apply extends_insert_file; unfold is_dir_at; rewrite E; reflexivity.
Qed.

Lemma store_grows ap full_path p text : grows_fs (store ap full_path p text).
Proof.
  unfold store. apply grows_bind; [apply grows_makedirs|intros _].
  apply grows_bind; [apply grows_write_text|intros _].
  apply grows_of_keeps, keeps_ret.
Qed.

Lemma manage_file_fs (self : FileManager) act p text fs :
  snd (fst (manage_file self act p text fs))
  = snd (fst (manage_file_body self act p text fs [])).
Proof.
  unfold manage_file.
  destruct (manage_file_body self act p text fs []) as [[[msg|r] fs'] log];
    reflexivity.
Qed.

(** The body of [manage_file] for an action that is none of [write],
    [append] and [delete] leaves the file system alone. *)
Lemma body_keeps (self : FileManager) act p text :
  String.eqb act "write" = false -> String.eqb act "append" = false ->
  String.eqb act "delete" = false ->
  keeps_fs (manage_file_body self act p text).
Proof.
  intros Hw Ha Hd. unfold manage_file_body. rewrite Hw, Ha, Hd.
  destruct (negb (guard self p)); [apply keeps_ret|].
  repeat match goal with
         | |- keeps_fs (if ?x then _ else _) => destruct x
         | |- keeps_fs (bind _ _) => apply keeps_bind; [|intros ?]
         | |- keeps_fs (ret _) => apply keeps_ret
         | |- keeps_fs (path_exists _) => apply keeps_exists
         | |- keeps_fs (path_isdir _) => apply keeps_isdir
         | |- keeps_fs (listdir _) => apply keeps_listdir
         | |- keeps_fs (read_text _) => apply keeps_read_text
         | |- keeps_fs (list_entries _ _) => apply keeps_list_entries
         end.
Qed.

(** X10. Only [write], [append] and [delete] can change the file system:
    every other action, [read] and [list] and any unknown name, leaves it
    exactly as it was, whether it succeeds or fails. *)
Theorem other_actions_change_nothing (self : FileManager) act p text fs :
  act <> "write" -> act <> "append" -> act <> "delete" ->
  snd (fst (manage_file self act p text fs)) = fs.
Proof.
  intros Hw Ha Hd. rewrite manage_file_fs.
  apply body_keeps; apply String.eqb_neq; assumption.
Qed.

Lemma other_actions_change_nothing_witness :
  snd (fst (manage_file {| working_dir := "/home/user" |} "list" "." None
                        Props.sample_fs))
  = Props.sample_fs.
Proof. apply other_actions_change_nothing; discriminate. Defined.

(** Files at other places keep their text through [write] and [append]. *)
Lemma store_keeps_other_files ap full_path p text fs log q t out fs' log' :
  node_at fs q = Some (File t) ->
  store ap full_path p text fs log = (out, fs', log') ->
  node_at fs' q = Some (File t) \/ locate fs' full_path = Some q.
Proof.
  intros Hq. unfold store. unfold bind at 1. rewrite run_makedirs.
  destruct (is_empty (PosixPath.dirname full_path));
    [intros [= _ <- _]; left; exact Hq|].
  destruct (make_dirs fs _ _) as [fs1|] eqn:Em;
    [|intros [= _ <- _]; left; exact Hq].
  rewrite (with_tree_same fs fs1 (make_dirs_cwd _ _ _ _ Em)
             (make_dirs_stat _ _ _ _ Em)).
  pose proof (make_dirs_keeps _ _ _ _ _ _ Em Hq) as Hq1.
  unfold bind at 1. rewrite run_write_text. cbv zeta.
  destruct (locate fs1 full_path) as [place|] eqn:El;
    [|intros [= _ <- _]; left; exact Hq1].
  assert (Hput : forall new,
             is_dir_at fs1 place = false ->
             node_at (with_tree fs1 (<[place := File new]> (tree fs1))) q
             = Some (File t) \/
             locate (with_tree fs1 (<[place := File new]> (tree fs1))) full_path
             = Some q).
  { intros new Hnd. destruct (decide (q = place)) as [->|Hne].
    - right. exact (locate_mono fs1
                      (with_tree fs1 (<[place := File new]> (tree fs1)))
                      full_path place eq_refl
                      (extends_dirs _ _ (extends_insert_file fs1 place new Hnd))
                      El).
    - left. rewrite node_at_insert_ne by exact Hne. exact Hq1. }
  destruct (node_at fs1 place) as [[old|]|] eqn:En; unfold ret;
    intros [= _ <- _]; [|left; exact Hq1|];
    apply Hput; unfold is_dir_at; rewrite En; reflexivity.
Qed.

(** X11. Nothing is lost except through [delete]: after any other action,
    also one that fails half way, every directory that was there is still
    a directory, every file that was there is still a file, and every
    file keeps its text unless it is the file the path names. *)
Theorem nothing_lost_without_delete (self : FileManager) act p text fs :
  act <> "delete" ->
  let fs' := snd (fst (manage_file self act p text fs)) in
  extends fs fs' /\
  forall q t,
    node_at fs q = Some (File t) ->
    node_at fs' q = Some (File t) \/
    locate fs' (PosixPath.join (working_dir self) p) = Some q.
Proof.
  intros Hd. cbv zeta. rewrite manage_file_fs.
  assert (Hsame : snd (fst (manage_file_body self act p text fs [])) = fs ->
                  extends fs (snd (fst (manage_file_body self act p text fs []))) /\
                  forall q t,
                    node_at fs q = Some (File t) ->
                    node_at (snd (fst (manage_file_body self act p text fs []))) q
                    = Some (File t) \/
                    locate (snd (fst (manage_file_body self act p text fs [])))
                           (PosixPath.join (working_dir self) p) = Some q).
  { intros ->. split; [apply extends_refl|]. intros q t Hq. left. exact Hq. }
  assert (Hstore : forall ap : bool, guard self p = true ->
                     act = (if ap then "append" else "write") ->
                     extends fs (snd (fst (manage_file_body self act p text fs []))) /\
                     forall q t,
                       node_at fs q = Some (File t) ->
                       node_at (snd (fst (manage_file_body self act p text fs []))) q
                       = Some (File t) \/
                       locate (snd (fst (manage_file_body self act p text fs [])))
                              (PosixPath.join (working_dir self) p) = Some q).
  { intros ap Hg ->. rewrite (manage_file_store self ap p text Hg).
    split; [apply store_grows|]. intros q t Hq.
    destruct (store ap (PosixPath.join (working_dir self) p) p text fs [])
      as [[out fs'] log'] eqn:E.
    exact (store_keeps_other_files ap _ p text fs [] q t out fs' log' Hq E). }
  destruct (guard self p) eqn:Hg;
    [|apply Hsame; unfold manage_file_body; rewrite Hg; reflexivity].
  destruct (String.eqb act "write") eqn:Ew;
    [apply String.eqb_eq in Ew; exact (Hstore false eq_refl Ew)|].
  destruct (String.eqb act "append") eqn:Ea;
    [apply String.eqb_eq in Ea; exact (Hstore true eq_refl Ea)|].
  apply Hsame, body_keeps; [assumption..|]. apply String.eqb_neq, Hd.
Qed.

Lemma nothing_lost_without_delete_witness :
  extends Props.sample_fs
    (snd (fst (manage_file {| working_dir := "/home/user" |} "write"
                           "a.txt/inside" (Some "x") Props.sample_fs))).
Proof.
  apply (nothing_lost_without_delete {| working_dir := "/home/user" |} "write").
  discriminate.
Defined.

Lemma returns_ret {A} (Q : A -> Prop) (a : A) : Q a -> returns_only Q (ret a).
Proof. intros H fs log. exact H. Qed.

Lemma returns_bind {A B} (Q : B -> Prop) (m : io A) (k : A -> io B) :
  (forall a, returns_only Q (k a)) -> returns_only Q (bind m k).
Proof.
  intros Hk fs log. unfold bind.
  destruct (m fs log) as [[[msg|a] fs1] log1]; [exact I|apply Hk].
Qed.

Lemma body_well_formed (self : FileManager) act p text :
  returns_only (well_formed_result p) (manage_file_body self act p text).
Proof.
  assert (Hf : forall msg, well_formed_result p (failed p msg))
    by (intros msg; split; [reflexivity|split; discriminate]).
  assert (Hd : forall a, well_formed_result p (done_action p a))
    by (intros a; split; [reflexivity|split; reflexivity]).
  unfold manage_file_body.
  repeat match goal with
         | |- returns_only _ (if ?x then _ else _) => destruct x
         | |- returns_only _ (bind _ _) => apply returns_bind; intros ?
         | |- returns_only _ (ret (failed _ _)) => apply returns_ret, Hf
         | |- returns_only _ (ret (done_action _ _)) => apply returns_ret, Hd
         | |- returns_only _ (ret _) =>
             apply returns_ret; split; [reflexivity|split; reflexivity]
         end.
Qed.

(** X12. The shape of every value of [manage_file], for every action,
    path and file system: it names the path it was given, and it carries
    an error text exactly when it reports failure. *)
Theorem file_result_shape (self : FileManager) act p text fs :
  let r := fst (fst (manage_file self act p text fs)) in
  path r = p /\ (success r = true <-> error r = None) /\
  (success r = false <-> is_Some (error r)).
Proof.
  cbv zeta. pose proof (body_well_formed self act p text fs []) as H.
  unfold manage_file.
  destruct (manage_file_body self act p text fs []) as [[[msg|r] fs'] log];
    cbn [fst snd] in *.
  - repeat split; try discriminate; eauto.
  - destruct H as [H1 H2]. split; [exact H1|]. split; [exact H2|].
    destruct (success r), (error r) as [e|].
    + discriminate (proj1 H2 eq_refl).
    + split; [discriminate|intros [x Hx]; discriminate].
    + split; [eauto|reflexivity].
    + discriminate (proj2 H2 eq_refl).
Qed.




End FileEffects.

(** ** More on paths *)

Section NormalForm.
Import PyStr PosixPath FS Files.

Lemma split_char_slash_free_all s :
  Forall (fun c => contains "/" c = false) (split_char "/" s).
Proof.
  induction s as [|c s IH]; cbn [split_char].
  - constructor; [reflexivity|constructor].
  - destruct (Ascii.eqb c "/") eqn:E.
    + constructor; [reflexivity|exact IH].
    + destruct (split_char "/" s) as [|h t].
      * constructor; [|constructor]. cbn. rewrite E. reflexivity.
      * apply Forall_cons in IH as [Hh Ht]. constructor; [|exact Ht].
        cbn [contains startswith]. rewrite E, Hh. reflexivity.
Qed.

Lemma Forall_removelast {A} (P : A -> Prop) l :
  Forall P l -> Forall P (removelast l).
Proof.
  induction l as [|a [|b l] IH]; intros H; cbn; [constructor|constructor|].
  apply Forall_cons in H as [Ha H]. constructor; [exact Ha|exact (IH H)].
Qed.

Lemma last_is_name acc :
  Forall (fun c => is_name c = true) acc -> acc <> [] ->
  String.eqb (List.last acc "") ".." = false.
Proof.
  intros H Hne. destruct (exists_last Hne) as (l & a & ->).
  rewrite last_last. apply Forall_app in H as [_ H].
  apply Forall_cons in H as [Ha _]. exact (proj2 (proj2 (name_facts a Ha))).
Qed.

(** For a path that starts with a slash the loop of [normpath] keeps
    names only. *)
Lemma norm_comps_names_only initial comps : forall acc,
  initial <> 0 ->
  Forall (fun c => contains "/" c = false) comps ->
  Forall (fun c => is_name c = true) acc ->
  Forall (fun c => is_name c = true) (norm_comps initial comps acc).
Proof.
  induction comps as [|comp rest IH]; intros acc Hi Hc Ha; [exact Ha|].
  apply Forall_cons in Hc as [Hcomp Hrest]. cbn [norm_comps].
  destruct (String.eqb comp "" || String.eqb comp ".") eqn:E1;
    [apply IH; assumption|].
  apply orb_false_iff in E1 as [E1 E2].
  assert (Hempty : is_empty comp = false)
    by (destruct comp; [discriminate|reflexivity]).
  destruct (String.eqb comp "..") eqn:E3.
  - replace (Nat.eqb initial 0) with false
      by (symmetry; apply Nat.eqb_neq, Hi).
    cbn [negb andb orb].
    destruct (is_nil acc) eqn:Hnil; cbn [negb andb].
    + apply IH; assumption.
    + rewrite last_is_name by (assumption || (intros ->; discriminate)).
      apply IH; [assumption..|]. apply Forall_removelast, Ha.
  - cbn [negb orb]. apply IH; [assumption..|].
    apply Forall_app. split; [exact Ha|]. constructor; [|constructor].
    unfold is_name. rewrite Hempty, E2, E3, Hcomp. reflexivity.
Qed.

Lemma initial_slashes_range p :
  startswith p "/" = true -> initial_slashes p = 1 \/ initial_slashes p = 2.
Proof.
  intros H. unfold initial_slashes. rewrite H.
  destruct (startswith p "//" && negb (startswith p "///")); auto.
Qed.

Lemma split_slashes i : forall s,
  split_char "/" (slashes i +:+ s) = repeat "" i ++ split_char "/" s.
Proof.
  induction i as [|i IH]; intros s; [reflexivity|].
  cbn [slashes repeat]. rewrite append_cons. cbn [split_char].
  rewrite Ascii.eqb_refl, IH. reflexivity.
Qed.

Lemma norm_comps_skip_empty initial i comps acc :
  norm_comps initial (repeat "" i ++ comps) acc = norm_comps initial comps acc.
Proof. induction i as [|i IH]; [reflexivity|exact IH]. Qed.

Lemma forallb_Forall_name names :
  forallb is_name names = true <-> Forall (fun c => is_name c = true) names.
Proof.
  rewrite forallb_forall, Forall_forall. split; intros H x Hx; apply H.
  - apply list_elem_of_In, Hx.
  - apply list_elem_of_In, Hx.
Qed.

(** One or two slashes followed by names is a normal form. *)
Lemma normpath_of_names i names :
  i = 1 \/ i = 2 ->
  Forall (fun c => is_name c = true) names ->
  normpath (slashes i +:+ PyStr.join "/" names) = slashes i +:+ PyStr.join "/" names.
Proof.
  intros Hi Hn. destruct names as [|c cs].
  - destruct Hi as [-> | ->]; reflexivity.
  - apply Forall_cons in Hn as Hn'. destruct Hn' as [Hc _].
    apply forallb_Forall_name in Hn.
    assert (Hinit : initial_slashes (slashes i +:+ PyStr.join "/" (c :: cs)) = i).
    { pose proof (join_first_char c cs Hc) as H1.
      destruct (PyStr.join "/" (c :: cs)) as [|x t] eqn:E.
      - pose proof (join_not_empty c cs Hc) as H'. rewrite E in H'. discriminate.
      - cbn [startswith] in H1. rewrite andb_true_r in H1.
        destruct Hi as [-> | ->]; cbn [slashes]; rewrite !append_cons;
          change ("" +:+ String x t) with (String x t);
          unfold initial_slashes; cbn [startswith];
          rewrite !Ascii.eqb_refl, H1; reflexivity. }
    unfold normpath. rewrite Hinit, split_slashes, norm_comps_skip_empty.
    rewrite split_join by (assumption || discriminate).
    rewrite norm_comps_names by assumption.
    destruct Hi as [-> | ->]; reflexivity.
Qed.

(** X14. The normal form of a path that starts with a slash is one or two
    slashes followed by names joined by single slashes: no name is empty,
    ["."] or [".."], so no step upwards is left in what the guard of
    [manage_file] compares; and normalising it again changes nothing. *)
Theorem normpath_absolute (p : string) :
  startswith p "/" = true ->
  exists i names,
    (i = 1 \/ i = 2) /\
    Forall (fun c => is_name c = true) names /\
    normpath p = slashes i +:+ PyStr.join "/" names /\
    normpath (normpath p) = normpath p.
Proof.
  intros Hp. pose proof (initial_slashes_range p Hp) as Hi.
  exists (initial_slashes p),
         (norm_comps (initial_slashes p) (split_char "/" p) []).
  assert (Hn : Forall (fun c => is_name c = true)
                      (norm_comps (initial_slashes p) (split_char "/" p) [])).
  { apply norm_comps_names_only;
      [destruct Hi as [-> | ->]; discriminate
      |apply split_char_slash_free_all|constructor]. }
  assert (Heq : normpath p
                = slashes (initial_slashes p)
                  +:+ PyStr.join "/" (norm_comps (initial_slashes p)
                                                 (split_char "/" p) [])).
  { unfold normpath. destruct p as [|c p]; [discriminate|]. cbn [is_empty].
    destruct Hi as [-> | ->]; reflexivity. }
  split; [exact Hi|]. split; [exact Hn|]. split; [exact Heq|].
  rewrite Heq. apply normpath_of_names; assumption.
Qed.

Lemma normpath_absolute_witness :
  normpath (normpath "/home/user/../../etc//./passwd")
  = normpath "/home/user/../../etc//./passwd".
Proof.
  destruct (normpath_absolute "/home/user/../../etc//./passwd" eq_refl)
    as (i & names & _ & _ & _ & H).
  exact H.
Defined.

Lemma join_snoc_empty cs :
  cs <> [] -> PyStr.join "/" (cs ++ [""]) = PyStr.join "/" cs +:+ "/".
Proof.
  induction cs as [|c cs IH]; [congruence|]. intros _.
  destruct cs as [|d cs]; [reflexivity|].
  change ((c :: d :: cs) ++ [""]) with (c :: d :: (cs ++ [""])).
  rewrite !join_cons. change (d :: cs ++ [""]) with ((d :: cs) ++ [""]).
  rewrite IH by discriminate. rewrite !append_assoc. reflexivity.
Qed.

Lemma startswith_longer_root cs ds :
  cs <> [] ->
  startswith (Props.root_of (cs ++ ds)) (Props.root_of cs) = true.
Proof.
  intros Hne. rewrite !root_of_cons. cbn [startswith].
  rewrite Ascii.eqb_refl. cbn [andb].
  destruct ds as [|d ds].
  - rewrite app_nil_r. rewrite <- (append_empty_r (PyStr.join "/" cs)) at 1.
    apply startswith_append.
  - rewrite join_app_nonempty, join_snoc_empty by exact Hne.
    rewrite append_assoc. apply startswith_append.
Qed.

Lemma norm_comps_names_acc initial ds acc :
  forallb is_name ds = true -> norm_comps initial ds acc = acc ++ ds.
Proof.
  intros H. rewrite <- (app_nil_r ds) at 1.
  rewrite norm_comps_push by assumption. reflexivity.
Qed.

(** X15. The guard lets ordinary requests through: against a root made
    of names, a relative path made of names (or the empty path) resolves
    to the root's names followed by the path's names, and passes. *)
Theorem guard_accepts_names (cs ds : list string) :
  cs <> [] ->
  forallb is_name cs = true ->
  forallb is_name ds = true ->
  let self := {| working_dir := Props.root_of cs |} in
  normpath (PosixPath.join (working_dir self) (PyStr.join "/" ds))
  = Props.root_of (cs ++ ds) /\
  guard self (PyStr.join "/" ds) = true.
Proof.
  intros Hne Hcs Hds. cbv zeta. cbn [working_dir].
  assert (Hrel : startswith (PyStr.join "/" ds) "/" = false).
  { destruct ds as [|d ds]; [reflexivity|]. apply join_first_char.
    cbn in Hds. apply andb_true_iff in Hds. tauto. }
  assert (Hnorm : normpath (PosixPath.join (Props.root_of cs) (PyStr.join "/" ds))
                  = Props.root_of (cs ++ ds)).
  { rewrite join_root by assumption.
    destruct cs as [|c cs']; [congruence|].
    assert (Hc : is_name c = true)
      by (cbn in Hcs; apply andb_true_iff in Hcs; tauto).
    unfold normpath. rewrite (initial_slashes_root c cs' _ Hc).
    change (is_empty (Props.root_of (c :: cs') +:+ "/" +:+ PyStr.join "/" ds))
      with false. cbv iota.
    change ("/" +:+ PyStr.join "/" ds) with (String "/" (PyStr.join "/" ds)).
    rewrite split_char_app, split_root by assumption.
    change (norm_comps 1 (("" :: c :: cs') ++ split_char "/" (PyStr.join "/" ds)) [])
      with (norm_comps 1 ((c :: cs') ++ split_char "/" (PyStr.join "/" ds)) []).
    rewrite norm_comps_push by assumption. rewrite app_nil_l.
    destruct ds as [|d ds'].
    - cbn. rewrite app_nil_r. reflexivity.
    - rewrite split_join by (assumption || discriminate).
      rewrite norm_comps_names_acc by assumption. reflexivity. }
  split; [exact Hnorm|]. unfold guard. cbn [working_dir].
  rewrite Hnorm, normpath_root by assumption.
  apply startswith_longer_root, Hne.
Qed.

Lemma guard_accepts_names_witness :
  guard {| working_dir := "/home/user" |} "reports/2024/summary.txt" = true.
Proof.
  apply (guard_accepts_names ["home"; "user"] ["reports"; "2024"; "summary.txt"]);
    [discriminate|reflexivity|reflexivity].
Defined.

End NormalForm.

(** ** More on the plan parser *)

Section PlanParserMore.
Import PyStr Orchestrator Props Words.

Lemma rstrip_no_final_space s : endswith_char (rstrip s) " " = false.
Proof.
  induction s as [|c s IH]; [reflexivity|]. cbn [rstrip].
  destruct (is_empty (rstrip s)) eqn:E; cbn [andb].
  - destruct (isspace c) eqn:Ec; [reflexivity|]. cbn [endswith_char].
    rewrite E. destruct (Ascii.eqb c " ") eqn:E2; [|reflexivity].
    apply Ascii.eqb_eq in E2. subst c. discriminate.
  - cbn [endswith_char]. rewrite E. exact IH.
Qed.

Lemma lstrip_no_final_space s :
  endswith_char s " " = false -> endswith_char (lstrip s) " " = false.
Proof.
  induction s as [|c s IH]; intros H; [reflexivity|]. cbn [lstrip].
  destruct (isspace c); [|exact H]. cbn [endswith_char] in H.
  destruct s as [|d s]; [reflexivity|]. exact (IH H).
Qed.

Lemma strip_no_final_space s : endswith_char (strip s) " " = false.
Proof. apply lstrip_no_final_space, rstrip_no_final_space. Qed.

(** What follows the first [". "] of a stripped line is not empty. *)
Lemma header_description_not_empty raw n d :
  split_once ". " (strip raw) = [n; d] -> d <> "".
Proof.
  intros H ->. apply split_once_first in H as (before & Heq & _).
  pose proof (strip_no_final_space raw) as Hs. rewrite Heq in Hs.
  rewrite endswith_char_app in Hs by reflexivity. discriminate.
Qed.

Lemma parse_lines_say_something lines : forall steps cur subs,
  Forall says_something steps ->
  (forall d, cur = Some d -> d <> "") ->
  Forall (fun t => t <> "") subs ->
  Forall says_something (parse_lines lines steps cur subs).
Proof.
  assert (Hclose : forall steps cur subs,
             Forall says_something steps ->
             (forall d, cur = Some d -> d <> "") ->
             Forall (fun t => t <> "") subs ->
             Forall says_something (close steps cur subs)).
  { intros steps [d|] subs Hs Hc Hsub; [|exact Hs].
    apply Forall_app. split; [exact Hs|]. constructor; [|constructor].
    split; [exact (Hc d eq_refl)|exact Hsub]. }
  induction lines as [|raw rest IH]; intros steps cur subs Hs Hc Hsub.
  - apply Hclose; assumption.
  - cbn [parse_lines]. destruct (is_empty (strip raw)); [apply IH; assumption|].
    destruct (is_header (strip raw)) eqn:Hh.
    + destruct (header_splits _ Hh) as (n & d & Hsplit). rewrite Hsplit.
      apply IH; [apply Hclose; assumption| |constructor].
      intros d' [= <-]. exact (header_description_not_empty raw n d Hsplit).
    + destruct (is_bullet (strip raw)); [|apply IH; assumption].
      destruct (strip (drop 1 (strip raw))) as [|c t] eqn:E;
        [apply IH; assumption|].
      destruct (is_open cur); cbn [is_empty negb andb];
        [|apply IH; assumption].
      apply IH; [assumption..|]. apply Forall_app. split; [exact Hsub|].
      constructor; [discriminate|constructor].
Qed.

(** X16. Every step that [_parse_plan] returns says something: its
    description is not empty, and none of its sub-tasks is empty. *)
Theorem parsed_steps_say_something (plan_text : string) :
  Forall (fun s => description s <> "" /\ Forall (fun t => t <> "") (subtasks s))
         (_parse_plan plan_text).
Proof.
  unfold _parse_plan.
  apply (parse_lines_say_something _ [] None []);
    [constructor|discriminate|constructor].
Qed.

Lemma skipped_while_closed raw rest :
  is_header (strip raw) = false ->
  parse_lines (raw :: rest) [] None [] = parse_lines rest [] None [].
Proof.
  intros H. cbn [parse_lines]. rewrite H.
  destruct (is_empty (strip raw)); [reflexivity|].
  destruct (is_bullet (strip raw)); [|reflexivity].
  cbn [is_open]. rewrite andb_false_r. reflexivity.
Qed.

(** X17. Whatever comes before the first header line is ignored: lines
    that are no headers, bullets included, leave no trace when no step is
    open yet, so the parse is that of the remaining lines. *)
Theorem lines_before_first_header_ignored (before rest : list string) :
  (forall raw, In raw before -> is_header (strip raw) = false) ->
  parse_lines (before ++ rest) [] None [] = parse_lines rest [] None [].
Proof.
  induction before as [|raw before IH]; intros H; [reflexivity|].
  cbn [app]. rewrite skipped_while_closed by (apply H; left; reflexivity).
  apply IH. intros r Hr. apply H. right. exact Hr.
Qed.

Lemma lines_before_first_header_ignored_witness :
  parse_lines (["Here is the plan:"; "- first thought"] ++ ["1. Do it"; "- now"])
              [] None []
  = [ {| description := "Do it"; subtasks := ["now"]; status := "pending" |} ].
Proof.
  rewrite lines_before_first_header_ignored.
  - reflexivity.
  - intros raw [<-|[<-|[]]]; reflexivity.
Defined.

End PlanParserMore.

(** ** More on tool extraction and summaries *)

Section ToolsMore.
Import PyStr Orchestrator Props Words.

Lemma lower_app a b : lower (a +:+ b) = lower a +:+ lower b.
Proof.
  induction a as [|c a IH]; [reflexivity|].
  rewrite append_cons. cbn [lower]. rewrite IH. reflexivity.
Qed.

Lemma contains_lower sub s :
  contains sub s = true -> contains (lower sub) (lower s) = true.
Proof.
  intros (pre & post & ->)%contains_iff. apply contains_iff.
  exists (lower pre), (lower post). rewrite !lower_app. reflexivity.
Qed.

(** X18. Tool extraction: the calls found in a response are a
    sub-sequence of the registered tools in their fixed order, so each tool
    is called at most once however often it is named; a tool is called as
    soon as its name occurs in the response in any mix of upper and lower
    case; and the simulated dispatch returns one execution per call, in
    the same order. *)
Theorem tool_extraction (text : string) :
  sublist (map tool (tool_calls_of text)) tool_names /\
  (forall name variant,
      In name tool_names -> lower variant = name ->
      contains variant text = true ->
      In name (map tool (tool_calls_of text))) /\
  (forall yolo_mode,
      map te_tool (_simulate_tool_execution text yolo_mode)
      = map tool (tool_calls_of text)).
Proof.
  split; [|split].
  - unfold tool_calls_of, tool_names, when.
    destruct (contains "web_scraper" (lower text)),
             (contains "shell_command" (lower text)),
             (contains "file_manager" (lower text)),
             (contains "web_search" (lower text)); cbn;
      repeat first [ apply sublist_nil | apply sublist_skip | apply sublist_cons ].
  - intros name variant Hin Hl Hc. apply contains_lower in Hc. rewrite Hl in Hc.
    unfold tool_calls_of, when. rewrite !map_app.
    destruct Hin as [<-|[<-|[<-|[<-|[]]]]]; rewrite Hc; cbn;
      repeat (apply in_or_app; first [left; left; reflexivity | right]);
      try (left; reflexivity).
  - intros yolo_mode. unfold _simulate_tool_execution.
    rewrite map_map. reflexivity.
Qed.

Lemma tool_extraction_witness :
  In "file_manager"
     (map tool (tool_calls_of "Use the File_Manager, then FILE_MANAGER again.")).
Proof.
  apply (proj1 (proj2 (tool_extraction _)) "file_manager" "File_Manager");
    [simpl; tauto|reflexivity|reflexivity].
Defined.

Lemma success_count_le tes : success_count tes <= length tes.
Proof. unfold success_count. apply length_filter. Qed.

Lemma success_count_all tes :
  forallb success tes = true <-> success_count tes = length tes.
Proof.
  unfold success_count. induction tes as [|te tes IH]; [split; reflexivity|].
  pose proof (success_count_le tes) as Hle. unfold success_count in Hle.
  rewrite filter_cons. cbn [forallb length].
  destruct (success te) eqn:E; cbn [andb].
  - rewrite decide_True by reflexivity. cbn [length]. rewrite IH. split; lia.
  - rewrite decide_False by discriminate. split; [discriminate|lia].
Qed.

(** X19. The summary of a step agrees with its status: the step is
    completed exactly when the summary says that all tools executed
    successfully, which includes the step without tools; a failed step's
    summary says that all executions failed, or gives the two counts,
    both at least one, which add up to the number of tools. *)
Theorem summary_agrees_with_status
    (gc : nat -> string -> string)
    (sim : string -> bool -> list tool_execution)
    (self : orchestrator) (s : step) (num total_steps : nat) (yolo_mode : bool) :
  let r := fst (execute_step gc sim self s num total_steps yolo_mode) in
  let used := " Tools used: " +:+ join ", " (map te_tool (tool_executions r))
              +:+ "." in
  (result_status r = "completed" ->
   summary r = "Step execution: " +:+ "All tools executed successfully." +:+ used) /\
  (result_status r = "failed" ->
   summary r = "Step execution: " +:+ "All tool executions failed." +:+ used \/
   exists ok bad,
     1 <= ok /\ 1 <= bad /\ ok + bad = length (tool_executions r) /\
     summary r = "Step execution: "
                 +:+ (of_nat ok +:+ " tools succeeded, " +:+ of_nat bad
                      +:+ " tools failed.") +:+ used).
Proof.
  cbn [execute_step fst result_status tool_executions summary execution_text].
  set (tes := sim _ yolo_mode). unfold _generate_summary.
  pose proof (success_count_le tes) as Hle.
  pose proof (success_count_all tes) as Hall.
  destruct (forallb success tes) eqn:E.
  - split; [|intros [=]]. intros _.
    rewrite (proj1 Hall eq_refl), Nat.sub_diag. reflexivity.
  - split; [intros [=]|]. intros _.
    assert (Hlt : success_count tes < length tes).
    { destruct (Nat.eq_dec (success_count tes) (length tes)) as [Heq|Hne];
        [|lia]. discriminate (proj2 Hall Heq). }
    destruct (Nat.eqb (length tes - success_count tes) 0) eqn:E0;
      [apply Nat.eqb_eq in E0; lia|].
    destruct (Nat.eqb (success_count tes) 0) eqn:E1; [left; reflexivity|].
    apply Nat.eqb_neq in E1. right.
    exists (success_count tes), (length tes - success_count tes).
    repeat split; try lia.
Qed.

Lemma summary_agrees_with_status_witness :
  summary (fst (execute_step quiet_completion failing_shell fresh
                             (pending "think" []) 1 1 false))
  = "Step execution: All tools executed successfully. Tools used: .".
Proof.
  apply (proj1 (summary_agrees_with_status quiet_completion failing_shell fresh
                  (pending "think" []) 1 1 false)).
  reflexivity.
Defined.

End ToolsMore.

(** ** More on plan execution *)

Section ExecutionState.
Import PyStr Orchestrator Props Words.

Variable gc : nat -> string -> string.
Variable sim : string -> bool -> list tool_execution.

(** What the loop of [execute_plan] leaves behind: in the plan, in the
    request counter and in [execution_results]. *)
Lemma run_steps_state todo : forall self yolo total i overall,
  match run_steps gc sim self yolo total i todo overall with
  | (recs, _, todo', self') =>
      let n := length recs in
      map description todo' = map description todo /\
      map subtasks todo' = map subtasks todo /\
      map status (firstn n todo') = map record_status recs /\
      skipn n todo' = skipn n todo /\
      requests self' = requests self + n /\
      (forall rec, In rec recs ->
                   execution_results self' !! step_num rec
                   = Some (record_result rec)) /\
      (forall k, k <= i \/ i + n < k ->
                 execution_results self' !! k = execution_results self !! k)
  end.
Proof.
  induction todo as [|s rest IH]; intros self yolo total i overall.
  - cbn. repeat split; try reflexivity; try lia; intros rec [].
  - cbn [run_steps].
    destruct (execute_step gc sim self s (i + 1) total yolo) as [r self1] eqn:E.
    assert (Hreq : requests self1 = S (requests self))
      by (unfold execute_step in E; injection E as _ <-; reflexivity).
    assert (Hres : execution_results self1
                   = <[i + 1 := r]> (execution_results self))
      by (unfold execute_step in E; injection E as <- <-; reflexivity).
    destruct (String.eqb (result_status r) "failed" && negb yolo).
    + cbn. repeat split; try reflexivity; try lia.
      * intros rec [<-|[]]. cbn. rewrite Hres. apply lookup_insert_eq.
      * intros k Hk. rewrite Hres. apply lookup_insert_ne. lia.
    + specialize (IH self1 yolo total (S i) overall).
      destruct (run_steps gc sim self1 yolo total (S i) rest overall)
        as [[[recs ov] rest'] self2].
      cbn zeta in IH. destruct IH as (H1 & H2 & H3 & H4 & H5 & H6 & H7).
      cbn [length map firstn skipn]. repeat split.
      * cbn. f_equal. exact H1.
      * cbn. f_equal. exact H2.
      * cbn. f_equal. exact H3.
      * exact H4.
      * lia.
      * intros rec [<-|Hin]; [|exact (H6 rec Hin)]. cbn [step_num record_result].
        rewrite H7 by lia. rewrite Hres. apply lookup_insert_eq.
      * intros k Hk. rewrite H7 by lia. rewrite Hres.
        apply lookup_insert_ne. lia.
Qed.

Lemma execute_plan_state (self : orchestrator) (plan : list step)
    (yolo_mode : bool) :
  let out := execute_plan gc sim self plan yolo_mode in
  let n := length (steps (fst (fst out))) in
  map description (snd (fst out)) = map description plan /\
  map subtasks (snd (fst out)) = map subtasks plan /\
  map status (firstn n (snd (fst out)))
  = map record_status (steps (fst (fst out))) /\
  skipn n (snd (fst out)) = skipn n plan /\
  requests (snd out) = requests self + n /\
  (forall rec, In rec (steps (fst (fst out))) ->
               execution_results (snd out) !! step_num rec
               = Some (record_result rec)) /\
  (forall k, k = 0 \/ n < k ->
             execution_results (snd out) !! k = execution_results self !! k).
Proof.
  unfold execute_plan.
  pose proof (run_steps_state plan self yolo_mode (length plan) 0 "in_progress")
    as H.
  destruct (run_steps gc sim self yolo_mode (length plan) 0 plan "in_progress")
    as [[[recs ov] plan'] self'].
  cbn zeta in *. cbn [fst snd steps].
  destruct H as (H1 & H2 & H3 & H4 & H5 & H6 & H7).
  repeat split; try assumption. intros k Hk. apply H7. lia.
Qed.

(** X20. [execute_plan] writes the statuses into the plan it was given
    and nothing else: descriptions and sub-tasks are unchanged, each
    executed step carries the status recorded for it, and the steps after
    the last executed one are as they were. *)
Theorem plan_statuses_updated (self : orchestrator) (plan : list step)
    (yolo_mode : bool) :
  let out := execute_plan gc sim self plan yolo_mode in
  let plan' := snd (fst out) in
  let n := length (steps (fst (fst out))) in
  length plan' = length plan /\
  map description plan' = map description plan /\
  map subtasks plan' = map subtasks plan /\
  map status (firstn n plan') = map record_status (steps (fst (fst out))) /\
  skipn n plan' = skipn n plan.
Proof.
  destruct (execute_plan_state self plan yolo_mode) as (H1 & H2 & H3 & H4 & _).
  cbv zeta. split; [|repeat split; assumption].
  rewrite <- (length_map description (snd (fst _))), H1. apply length_map.
Qed.

(** X21. The bookkeeping of [execute_plan]: it asks for one completion
    per executed step and for none after it has stopped; afterwards
    [execution_results] holds every recorded result under its step
    number; and the entries under all other numbers, such as those left
    by an earlier, longer plan, are untouched. *)
Theorem execution_bookkeeping (self : orchestrator) (plan : list step)
    (yolo_mode : bool) :
  let out := execute_plan gc sim self plan yolo_mode in
  let n := length (steps (fst (fst out))) in
  requests (snd out) = requests self + n /\
  (forall rec, In rec (steps (fst (fst out))) ->
               execution_results (snd out) !! step_num rec
               = Some (record_result rec)) /\
  (forall k, k = 0 \/ n < k ->
             execution_results (snd out) !! k = execution_results self !! k).
Proof.
  destruct (execute_plan_state self plan yolo_mode)
    as (_ & _ & _ & _ & H5 & H6 & H7).
  cbv zeta. repeat split; assumption.
Qed.

Lemma omap_agree {A B} (f g : A -> option B) l :
  (forall x, In x l -> f x = g x) -> omap f l = omap g l.
Proof.
  induction l as [|x l IH]; intros H; [reflexivity|].
  rewrite !omap_cons, (H x (or_introl eq_refl)), IH; [reflexivity|].
  intros y Hy. apply H. right. exact Hy.
Qed.

(** The context of a step reads the results of the steps before it only. *)
Lemma step_context_agree (res1 res2 : gmap nat step_result) i total :
  (forall k, 1 <= k <= i -> res1 !! k = res2 !! k) ->
  (1 <= i -> res1 <> ∅ /\ res2 <> ∅) ->
  step_context res1 (i + 1) total = step_context res2 (i + 1) total.
Proof.
  intros Hagree Hne. unfold step_context.
  destruct i as [|i]; [reflexivity|].
  destruct (Hne ltac:(lia)) as [Hn1 Hn2].
  rewrite (bool_decide_eq_false_2 _ Hn1), (bool_decide_eq_false_2 _ Hn2).
  replace (prev_results res1 (S i + 1)) with (prev_results res2 (S i + 1));
    [reflexivity|].
  unfold prev_results. symmetry. apply omap_agree. intros k Hk.
  apply in_seq in Hk. rewrite Hagree by lia. reflexivity.
Qed.

Lemma run_steps_agree todo : forall self1 self2 yolo total i overall,
  requests self1 = requests self2 ->
  (forall k, 1 <= k <= i ->
             execution_results self1 !! k = execution_results self2 !! k) ->
  (1 <= i -> execution_results self1 <> ∅ /\ execution_results self2 <> ∅) ->
  fst (run_steps gc sim self1 yolo total i todo overall)
  = fst (run_steps gc sim self2 yolo total i todo overall).
Proof.
  induction todo as [|s rest IH]; intros self1 self2 yolo total i overall
    Hreq Hagree Hne; [reflexivity|].
  cbn [run_steps].
  pose proof (step_context_agree _ _ i total Hagree Hne) as Hctx.
  unfold execute_step. rewrite <- Hreq, <- Hctx.
  set (r := {| execution_text := _ |}).
  destruct (String.eqb (result_status r) "failed" && negb yolo); [reflexivity|].
  set (a := {| execution_results := <[i + 1 := r]> (execution_results self1);
               requests := S (requests self1) |}).
  set (b := {| execution_results := <[i + 1 := r]> (execution_results self2);
               requests := S (requests self1) |}).
  specialize (IH a b yolo total (S i) overall).
  destruct (run_steps gc sim a yolo total (S i) rest overall)
    as [[[recs1 ov1] rest1] s1].
  destruct (run_steps gc sim b yolo total (S i) rest overall)
    as [[[recs2 ov2] rest2] s2].
  cbn [fst] in *.
  assert (H : (recs1, ov1, rest1) = (recs2, ov2, rest2)).
  { apply IH; subst a b; cbn [requests execution_results].
    - reflexivity.
    - intros k Hk. destruct (decide (k = i + 1)) as [->|Hk'].
      + rewrite !lookup_insert_eq. reflexivity.
      + rewrite !lookup_insert_ne by lia. apply Hagree. lia.
    - intros _. split; apply insert_non_empty. }
  injection H as -> -> ->. reflexivity.
Qed.

(** X22. A run does not depend on what earlier runs left behind: two
    orchestrators that differ only in their [execution_results] return
    the same plan result and the same updated plan. *)
Theorem earlier_results_do_not_matter (self1 self2 : orchestrator)
    (plan : list step) (yolo_mode : bool) :
  requests self1 = requests self2 ->
  fst (execute_plan gc sim self1 plan yolo_mode)
  = fst (execute_plan gc sim self2 plan yolo_mode).
Proof.
  intros Hreq. unfold execute_plan.
  pose proof (run_steps_agree plan self1 self2 yolo_mode (length plan) 0
                "in_progress" Hreq ltac:(intros; lia) ltac:(intros; lia)) as H.
  destruct (run_steps gc sim self1 yolo_mode (length plan) 0 plan "in_progress")
    as [[[recs1 ov1] plan1] s1].
  destruct (run_steps gc sim self2 yolo_mode (length plan) 0 plan "in_progress")
    as [[[recs2 ov2] plan2] s2].
  cbn [fst] in *. injection H as -> -> ->. reflexivity.
Qed.

End ExecutionState.

Section ExecutionWitnesses.
Import PyStr Orchestrator Props Words.

Lemma execution_bookkeeping_witness :
  let out := execute_plan scripted_completion failing_shell fresh three_steps
                          false in
  execution_results (snd out) !! 7 = None.
Proof.
  intros out.
  exact (proj2 (proj2 (execution_bookkeeping scripted_completion failing_shell
                         fresh three_steps false))
               7 ltac:(right; vm_compute; lia)).
Defined.

Lemma earlier_results_do_not_matter_witness :
  let stale := {| execution_results :=
                    {[ 2 := {| execution_text := "old"; tool_executions := [];
                               result_status := "failed";
                               summary := "left by an earlier run" |} ]};
                  requests := 0 |} in
  fst (execute_plan scripted_completion failing_shell stale three_steps true)
  = fst (execute_plan scripted_completion failing_shell fresh three_steps true).
Proof.
  intros stale. apply earlier_results_do_not_matter. reflexivity.
Defined.

End ExecutionWitnesses.

(** ** Planning and running a task *)

Section RunningTasks.
Import PyStr Orchestrator Props Words Tasks.

Variable gc : nat -> string -> string.
Variable sim : string -> bool -> list tool_execution.


(** X24. When the planning response has no header line, and so when the
    planning request failed and the client returned the empty text, the
    plan is empty, nothing is executed, and the run is nevertheless
    recorded as completed. *)
Theorem run_task_without_plan (self : agent) (task_text : string) (yolo : bool) :
  (forall raw,
      In raw (split_char (ascii_of_nat 10)
                (strip (gc (requests (core self))
                           (planning_prompt task_text tools_desc)))) ->
      is_header (strip raw) = false) ->
  let out := run_task gc sim self task_text yolo in
  fst out = {| task := task_text; plan := [];
               execution := {| steps := []; overall_status := "completed" |};
               yolo_mode := yolo |} /\
  requests (core (snd out)) = requests (core self) + 1 /\
  execution_results (core (snd out)) = execution_results (core self) /\
  task_history (snd out) = task_history self ++ [fst out].
Proof.
  intros H. cbv zeta. unfold run_task, plan_task.
  assert (Hplan : _parse_plan (gc (requests (core self))
                                  (planning_prompt task_text tools_desc)) = [])
    by (apply parse_lines_no_header, H).
  rewrite Hplan. cbn. repeat split. lia.
Qed.

End RunningTasks.

Section RunningTasksWitnesses.
Import PyStr Orchestrator Props Words Tasks.

Lemma run_task_without_plan_witness :
  fst (run_task failed_request _simulate_tool_execution new_agent
                "tidy the downloads" false)
  = {| task := "tidy the downloads"; plan := [];
       execution := {| steps := []; overall_status := "completed" |};
       yolo_mode := false |}.
Proof.
  apply (run_task_without_plan failed_request _simulate_tool_execution
           new_agent "tidy the downloads" false).
  intros raw [<-|[]]. reflexivity.
Defined.

End RunningTasksWitnesses.

(** ** The web scraper *)

Section Scraping.
Import PyStr Web.

Lemma length_append a b :
  String.length (a +:+ b) = String.length a + String.length b.
Proof.
  induction a as [|c a IH]; [reflexivity|].
  rewrite append_cons. cbn [String.length]. rewrite IH. reflexivity.
Qed.

Lemma length_take n : forall s, String.length (take n s) <= n.
Proof.
  induction n as [|n IH]; intros [|c s]; cbn; try lia.
  specialize (IH s). lia.
Qed.

Lemma take_is_prefix n : forall s, startswith s (take n s) = true.
Proof.
  induction n as [|n IH]; intros [|c s]; try reflexivity.
  cbn [take startswith]. rewrite Ascii.eqb_refl. apply IH.
Qed.

Lemma clip_bound n s : String.length (clip n s) <= n + 3.
Proof.
  unfold clip. destruct (Nat.ltb n (String.length s)) eqn:E.
  - rewrite length_append. pose proof (length_take n s). cbn. lia.
  - apply Nat.ltb_ge in E. lia.
Qed.

Lemma clip_short n s : String.length s <= n -> clip n s = s.
Proof.
  intros H. unfold clip.
  replace (Nat.ltb n (String.length s)) with false; [reflexivity|].
  symmetry. apply Nat.ltb_ge, H.
Qed.

(** X25. The shape of what [scrape] returns, whatever the network and
    the parsers do: a failure carries an error text and no content; a
    success carries no error, the URL it was given, a content and its
    type; and the content of a page that was not served as JSON is at
    most 5000 characters and the three dots long. A URL without scheme
    or host fails before any request. *)
Theorem scrape_result_shape (net : network) (u : string)
    (selector : option string) (credentials : option (gmap string string)) :
  let r := scrape net u selector credentials in
  (success r = false ->
   is_Some (error r) /\ content r = None /\ result_type r = None) /\
  (success r = true ->
   error r = None /\ url r = Some u /\
   exists c kind,
     content r = Some c /\ result_type r = Some kind /\
     (kind <> "json" -> String.length c <= limit + 3)) /\
  (forall parts,
     urlparse net u = inr parts ->
     is_empty (scheme parts) || is_empty (netloc parts) = true ->
     r = failure None ("Invalid URL: " +:+ u)).
Proof.
  pose (shape := fun r : scrape_result =>
    (success r = false ->
     is_Some (error r) /\ content r = None /\ result_type r = None) /\
    (success r = true ->
     error r = None /\ url r = Some u /\
     exists c kind,
       content r = Some c /\ result_type r = Some kind /\
       (kind <> "json" -> String.length c <= limit + 3))).
  assert (Hf : forall w msg, shape (failure w msg)).
  { intros w msg. split; cbn; [intros _; eauto|discriminate]. }
  assert (Hc : forall t s kind, shape (found u t (clip limit s) kind)).
  { intros t s kind. split; cbn; [discriminate|]. intros _.
    repeat split. exists (clip limit s), kind. repeat split.
    intros _. apply clip_bound. }
  assert (Hshape : shape (scrape net u selector credentials)).
  { unfold scrape.
    destruct (urlparse net u) as [msg|parts]; [apply Hf|].
    destruct (is_empty (scheme parts) || is_empty (netloc parts));
      [apply Hf|].
    destruct (get net u (auth_of credentials)) as [r|msg|msg];
      [|apply Hf|apply Hf].
    destruct (contains "text/html" (content_type r) && BS4_AVAILABLE net).
    - destruct (parsed r) as [msg|page]; [apply Hf|].
      destruct (html_content page selector) as [msg|c]; [apply Hf|apply Hc].
    - destruct (contains "application/json" (content_type r)); [|apply Hc].
      destruct (json r) as [msg|[compact indented]]; [apply Hf|].
      split; cbn; [discriminate|]. intros _. repeat split.
      eexists _, "json". repeat split. congruence. }
  cbv zeta. destruct Hshape as [H1 H2].
  split; [exact H1|]. split; [exact H2|].
  intros parts Hparts Hbad. unfold scrape. rewrite Hparts, Hbad. reflexivity.
Qed.

Lemma scrape_result_shape_witness :
  let r := scrape (plain_network "hello") "https://example.com/a" None None in
  error r = None /\ url r = Some "https://example.com/a".
Proof.
  intros r.
  destruct (proj1 (proj2 (scrape_result_shape (plain_network "hello")
                            "https://example.com/a" None None)) eq_refl)
    as (H1 & H2 & _).
  split; assumption.
Defined.

End Scraping.
